(** * The HAProxy instance: configuration lifecycle and reload arbitration

    A shallow embedding of [pkg/haproxy/instance.go].  The instance owns two
    configuration slots ([oldConfig], [curConfig]) and sequences calls into
    collaborators that live outside the file: the configuration builder, the
    dynamic updater, the template writer, the logger, the timer and
    [os/exec].  The collaborators are kept abstract (a record of state
    transformers over an arbitrary world), the instance methods are written
    in a small state-and-trace monad, and every call that leaves the
    instance is recorded so that statements about what a cycle did, and in
    which order, can be made about the run itself. *)

From Stdlib Require Import ZArith List String Ascii Bool Lia PeanoNat.
Import ListNotations.

Set Implicit Arguments.

Local Open Scope string_scope.
Local Open Scope list_scope.

(** ** Data model *)

(** Go objects held by reference (a [Config], a backend, the logger, a
    template set, the timer) are identified by a handle; their contents
    belong to the world the collaborators act on. *)
Definition handle := nat.

(** A Go [error] value, observed through its [Error()] text. *)
Record error : Type := errorString { Error : string }.

Record InstanceOptions : Type := {
  MaxOldConfigFiles : Z;
  HAProxyCmd : string;
  HAProxyConfigFile : string;
  ReloadCmd : string;
  ReloadStrategy : string;
  SortBackends : bool;
  ValidateConfig : bool
}.

(** The [options] literal handed to [createConfig] by [Config()]. *)
Record config_options : Type := {
  opt_mapsTemplate : handle;
  opt_mapsDir : string
}.

(** [type instance struct].  A [Config] interface value is [None] when it
    is [nil]. *)
Record instance : Type := {
  logger : handle;
  bindUtils : handle;
  options : InstanceOptions;
  templates : handle;
  mapsTemplate : handle;
  mapsDir : string;
  oldConfig : option handle;
  curConfig : option handle
}.

Definition set_curConfig (i : instance) (c : option handle) : instance :=
  {| logger := logger i; bindUtils := bindUtils i; options := options i;
     templates := templates i; mapsTemplate := mapsTemplate i;
     mapsDir := mapsDir i; oldConfig := oldConfig i; curConfig := c |}.

Definition set_oldConfig (i : instance) (c : option handle) : instance :=
  {| logger := logger i; bindUtils := bindUtils i; options := options i;
     templates := templates i; mapsTemplate := mapsTemplate i;
     mapsDir := mapsDir i; oldConfig := c; curConfig := curConfig i |}.

(** Modelled from the spec: the dynamic updater ([dynUpdater], built by
    [newDynUpdater] in a file that is not part of the sources at hand).  In
    the words of the specification it is "bound to an (old, current) pair at
    construction time", and its [update] reports whether every change was
    applied live together with the number of commands sent, which
    [Update] reads from the [cmdCnt] field. *)
Record dynUpdater : Type := {
  upd_old : option handle;
  upd_cur : option handle;
  cmdCnt : Z
}.

(** ** What a run records *)

Inductive level : Type :=
| LInfo
| LInfoV (v : Z)
| LWarn
| LError.

(** Operands of a printf-style log call. *)
Inductive logarg : Type :=
| AErr (e : error)
| AInt (n : Z)
| AStr (s : string).

(** The instance methods whose invocation is recorded. *)
Inductive method : Type :=
| Mcheck
| Mreload
| MclearConfig.

(** One entry per call that leaves [Update]; calls into collaborators
    carry the answer that came back. *)
Inductive event : Type :=
| ELog (lv : level) (format : string) (args : list logarg)
| ETick (label : string)
| ECreateConfig (bu : handle) (o : config_options) (res : handle)
| EBuildFrontendGroup (c : handle) (err : option error)
| EBuildBackendMaps (c : handle) (err : option error)
| EEquals (c : handle) (other : option handle) (res : bool)
| EDynUpdate (u : dynUpdater) (updated : bool) (u' : dynUpdater)
| EBackends (c : handle) (res : list handle)
| ESortEndpoints (b : handle)
| ETemplatesWrite (t : handle) (c : handle) (err : option error)
| EExec (name : string) (args : list string) (out : string)
        (err : option error)
| ECall (m : method).

(** ** Collaborators

    Everything the instance calls but does not define, as transformers of
    an arbitrary world [W] (the heap of configuration objects, the file
    system, the running proxy). *)
Record Collaborators (W : Type) : Type := {
  co_createConfig : handle -> config_options -> W -> handle * W;
  co_BuildFrontendGroup : handle -> W -> option error * W;
  co_BuildBackendMaps : handle -> W -> option error * W;
  co_Equals : handle -> option handle -> W -> bool * W;
  co_update : dynUpdater -> W -> (bool * dynUpdater) * W;
  co_Backends : handle -> W -> list handle * W;
  co_SortEndpoints : handle -> W -> W;
  co_Write : handle -> handle -> W -> option error * W;
  co_CombinedOutput : string -> list string -> W -> (string * option error) * W
}.

(** ** The monad: instance state, world state, and the trace of calls *)

Record outcome (W A : Type) : Type := Out {
  value : A;
  inst : instance;
  world : W;
  trace : list event
}.

Definition M (W A : Type) : Type := instance -> W -> outcome W A.

Definition ret {W A} (a : A) : M W A := fun i w => Out a i w [].

Definition bind {W A B} (m : M W A) (f : A -> M W B) : M W B :=
  fun i w =>
    match m i w with
    | Out a i1 w1 t1 =>
        match f a i1 w1 with
        | Out b i2 w2 t2 => Out b i2 w2 (t1 ++ t2)
        end
    end.

Declare Scope monad_scope.
Delimit Scope monad_scope with monad.
Notation "x <- m ; f" := (bind m (fun x => f))
  (at level 61, m at next level, right associativity) : monad_scope.
Notation "m ;; f" := (bind m (fun _ => f))
  (at level 61, right associativity) : monad_scope.
Local Open Scope monad_scope.

(** Read a field of the receiver. *)
Definition field {W A} (f : instance -> A) : M W A :=
  fun i w => Out (f i) i w [].

(** Assign the receiver. *)
Definition assign {W} (f : instance -> instance) : M W unit :=
  fun i w => Out tt (f i) w [].

Definition emit {W} (e : event) : M W unit :=
  fun i w => Out tt i w [e].

(** A call into a collaborator that returns a value; [ev] builds the trace
    entry from the answer. *)
Definition call {W A} (f : W -> A * W) (ev : A -> event) : M W A :=
  fun i w => match f w with (a, w1) => Out a i w1 [ev a] end.

(** [for _, x := range xs { body x }] *)
Fixpoint range {W A} (xs : list A) (body : A -> M W unit) : M W unit :=
  match xs with
  | [] => ret tt
  | x :: xs' => body x ;; range xs' body
  end.

Definition nl : string := String (ascii_of_nat 10) EmptyString.

(** ** The instance methods *)

Section Methods.

Context {W : Type}.

(** Go's [fmt] formatting of a format string against its operands.  It
    belongs to the Go standard library, not to this package, and is taken
    as given. *)
Variable Sprintf : string -> list logarg -> string.

Variable co : Collaborators W.

(** [fmt.Errorf(format, a...)]: an error whose text is the formatted
    string. *)
Definition Errorf (format : string) (a : list logarg) : error :=
  errorString (Sprintf format a).

(** *** Calls that leave the instance *)

Definition logger_Info (format : string) (a : list logarg) : M W unit :=
  emit (ELog LInfo format a).

Definition logger_InfoV (v : Z) (format : string) (a : list logarg)
  : M W unit :=
  emit (ELog (LInfoV v) format a).

Definition logger_Warn (format : string) (a : list logarg) : M W unit :=
  emit (ELog LWarn format a).

Definition logger_Error (format : string) (a : list logarg) : M W unit :=
  emit (ELog LError format a).

(** [timer.Tick(label)].  The timer is the caller's and [Update] only
    writes to it, so it is not threaded through: its ticks are entries of
    the trace. *)
Definition timer_Tick (label : string) : M W unit :=
  emit (ETick label).

Definition createConfig (bu : handle) (o : config_options) : M W handle :=
  call (co_createConfig co bu o) (ECreateConfig bu o).

Definition BuildFrontendGroup (c : handle) : M W (option error) :=
  call (co_BuildFrontendGroup co c) (EBuildFrontendGroup c).

Definition BuildBackendMaps (c : handle) : M W (option error) :=
  call (co_BuildBackendMaps co c) (EBuildBackendMaps c).

Definition Equals (c : handle) (other : option handle) : M W bool :=
  call (co_Equals co c other) (EEquals c other).

Definition Backends (c : handle) : M W (list handle) :=
  call (co_Backends co c) (EBackends c).

Definition SortEndpoints (b : handle) : M W unit :=
  fun i w => Out tt i (co_SortEndpoints co b w) [ESortEndpoints b].

(** [updater.update()]: the flag it returns, and the updater as the call
    left it. *)
Definition update (u : dynUpdater) : M W (bool * dynUpdater) :=
  call (co_update co u) (fun r => EDynUpdate u (fst r) (snd r)).

(** [i.templates.Write(c)] *)
Definition templates_Write (c : handle) : M W (option error) :=
  t <- field templates;
  call (co_Write co t c) (ETemplatesWrite t c).

(** [exec.Command(name, args...).CombinedOutput()], with [string(out)]. *)
Definition CombinedOutput (name : string) (args : list string)
  : M W (string * option error) :=
  call (co_CombinedOutput co name args)
       (fun r => EExec name args (fst r) (snd r)).

(** Modelled from the spec: [newDynUpdater], which is defined next to the
    dynamic updater and not in the file at hand.  It builds an updater
    bound to the (old, current) pair and leaves both slots alone ("no
    other component may read or mutate them directly"); the command
    count starts at Go's zero value. *)
Definition newDynUpdater : M W dynUpdater :=
  old <- field oldConfig;
  cur <- field curConfig;
  ret {| upd_old := old; upd_cur := cur; cmdCnt := 0 |}.

(** *** [func (i *instance) Config() Config] *)
Definition Config : M W handle :=
  cur <- field curConfig;
  match cur with
  | None =>
      bu <- field bindUtils;
      mt <- field mapsTemplate;
      md <- field mapsDir;
      config <- createConfig bu {| opt_mapsTemplate := mt;
                                   opt_mapsDir := md |};
      assign (fun i => set_curConfig i (Some config)) ;;
      ret config
  | Some c => ret c
  end.

(** *** [func (i *instance) clearConfig()] *)
Definition clearConfig : M W unit :=
  emit (ECall MclearConfig) ;;
  assign (fun i => set_oldConfig i (curConfig i)) ;;
  assign (fun i => set_curConfig i None).

(** *** [func (i *instance) check() error] *)
Definition check : M W (option error) :=
  emit (ECall Mcheck) ;;
  o <- field options;
  if String.eqb (HAProxyCmd o) "" then
    logger_Info "(test) check was skipped" [] ;;
    ret None
  else
    r <- CombinedOutput (HAProxyCmd o) ["-c"; "-f"; HAProxyConfigFile o];
    let outstr := fst r in
    match snd r with
    | Some _ => ret (Some (Errorf outstr []))
    | None => ret None
    end.

(** *** [func (i *instance) reload() error] *)
Definition reload : M W (option error) :=
  emit (ECall Mreload) ;;
  o <- field options;
  if String.eqb (ReloadCmd o) "" then
    logger_Info "(test) reload was skipped" [] ;;
    ret None
  else
    r <- CombinedOutput (ReloadCmd o)
                        [ReloadStrategy o; HAProxyConfigFile o];
    let outstr := fst r in
    (if (0 <? String.length outstr)%nat then
       logger_Warn ("output from haproxy:" ++ nl ++ "%v") [AStr outstr]
     else ret tt) ;;
    match snd r with
    | Some err => ret (Some err)
    | None => ret None
    end.

(** *** [func (i *instance) Update(timer *utils.Timer)]

    The field [i.curConfig] is read once below and the value reused:
    between the [nil] test and [clearConfig] nothing assigns it. *)

(** Lines 158-178: rotate, then confirm the live update or reload. *)
Definition Update_finish (updated : bool) (updater : dynUpdater)
  : M W unit :=
  clearConfig ;;
  if updated then
    if (0 <? cmdCnt updater)%Z then
      o <- field options;
      (if ValidateConfig o then
         err <- check;
         match err with
         | Some err =>
             logger_Error ("error validating config file:" ++ nl ++ "%v")
                          [AErr err]
         | None => ret tt
         end ;;
         timer_Tick "validate"
       else ret tt) ;;
      logger_Info
        "HAProxy updated without needing to reload. Commands sent: %d"
        [AInt (cmdCnt updater)]
    else
      logger_Info "old and new configurations match" []
  else
    err <- reload;
    match err with
    | Some err =>
        logger_Error ("error reloading server:" ++ nl ++ "%v") [AErr err]
    | None =>
        timer_Tick "reload" ;;
        logger_Info "HAProxy successfully reloaded" []
    end.

(** Lines 139-157: patch, sort, and write when needed. *)
Definition Update_patch (c : handle) : M W unit :=
  updater <- newDynUpdater;
  r <- update updater;
  let updated := fst r in
  let updater := snd r in
  o <- field options;
  (if SortBackends o then
     bs <- Backends c;
     range bs SortEndpoints
   else ret tt) ;;
  if negb updated || (0 <? cmdCnt updater)%Z then
    err <- templates_Write c;
    timer_Tick "writeTmpl" ;;
    match err with
    | Some err =>
        logger_Error "error writing configuration: %v" [AErr err] ;;
        clearConfig
    | None => Update_finish updated updater
    end
  else Update_finish updated updater.

Definition Update : M W unit :=
  cur <- field curConfig;
  match cur with
  | None => logger_Info "new configuration is empty" []
  | Some c =>
      err <- BuildFrontendGroup c;
      match err with
      | Some err =>
          logger_Error "error building configuration group: %v"
                       [AErr err] ;;
          clearConfig
      | None =>
          err <- BuildBackendMaps c;
          match err with
          | Some err =>
              logger_Error "error building backend maps: %v" [AErr err] ;;
              clearConfig
          | None =>
              old <- field oldConfig;
              eq <- Equals c old;
              if eq then
                logger_InfoV 2
                  "old and new configurations match, skipping reload" [] ;;
                clearConfig
              else Update_patch c
          end
      end
  end.

End Methods.


(** ** Reading a trace *)

Definition is_write (e : event) : bool :=
  match e with ETemplatesWrite _ _ _ => true | _ => false end.

Definition is_update (e : event) : bool :=
  match e with EDynUpdate _ _ _ => true | _ => false end.

Definition is_reload (e : event) : bool :=
  match e with ECall Mreload => true | _ => false end.

Definition is_check (e : event) : bool :=
  match e with ECall Mcheck => true | _ => false end.

Definition is_rotate (e : event) : bool :=
  match e with ECall MclearConfig => true | _ => false end.

Definition is_exec (e : event) : bool :=
  match e with EExec _ _ _ _ => true | _ => false end.

Definition is_create (e : event) : bool :=
  match e with ECreateConfig _ _ _ => true | _ => false end.

Definition is_build (e : event) : bool :=
  match e with
  | EBuildFrontendGroup _ _ | EBuildBackendMaps _ _ => true
  | _ => false
  end.

(** The events of the endpoint-sorting loop. *)
Definition is_sorting (e : event) : bool :=
  match e with EBackends _ _ | ESortEndpoints _ => true | _ => false end.

(** [p] happened during the run. *)
Definition occurs (p : event -> bool) (tr : list event) : bool :=
  existsb p tr.

(** How many times [p] happened. *)
Definition times (p : event -> bool) (tr : list event) : nat :=
  List.length (filter p tr).

(** No [p] event comes after a [q] event. *)
Fixpoint none_after (p q : event -> bool) (tr : list event) : bool :=
  match tr with
  | [] => true
  | e :: tr' =>
      (if q e then negb (existsb p tr') else true) && none_after p q tr'
  end.

(** Every [q] event has a [p] event somewhere before it; [seen] says
    whether a [p] event came before [tr]. *)
Fixpoint each_preceded (p q : event -> bool) (seen : bool)
         (tr : list event) : bool :=
  match tr with
  | [] => true
  | e :: tr' =>
      (if q e then seen else true) && each_preceded p q (seen || p e) tr'
  end.

(** The same two orderings, said about every way of cutting the trace at
    a [q] event. *)
Definition preceded_by (p q : event -> bool) (tr : list event) : Prop :=
  forall l1 x l2, tr = l1 ++ x :: l2 -> q x = true -> occurs p l1 = true.

Definition never_after (p q : event -> bool) (tr : list event) : Prop :=
  forall l1 x l2, tr = l1 ++ x :: l2 -> q x = true -> occurs p l2 = false.

(** The templates were written from [c] and the write returned no
    error. *)
Definition is_written (c : handle) (e : event) : bool :=
  match e with
  | ETemplatesWrite _ c' None => Nat.eqb c' c
  | _ => false
  end.

(** Both build phases ran on [c] and returned no error. *)
Definition builds_succeeded (c : handle) (tr : list event) : Prop :=
  In (EBuildFrontendGroup c None) tr /\ In (EBuildBackendMaps c None) tr.

(** The dynamic updater was called and reported [updated] with [n]
    commands sent. *)
Definition updater_reported (updated : bool) (n : Z) (tr : list event)
  : Prop :=
  exists u u', In (EDynUpdate u updated u') tr /\ cmdCnt u' = n.

(** A template write returned an error. *)
Definition write_failed (tr : list event) : Prop :=
  exists t c e, In (ETemplatesWrite t c (Some e)) tr.

(** ** The shape of one cycle

    What [clearConfig] does to the slots, and the traces [check],
    [reload] and [Update] can leave, one rule per path through the code. *)

Definition rotate (i : instance) : instance :=
  set_curConfig (set_oldConfig i (curConfig i)) None.

Definition msg_validate : string :=
  ("error validating config file:" ++ nl ++ "%v")%string.
Definition msg_reload : string :=
  ("error reloading server:" ++ nl ++ "%v")%string.
Definition msg_output : string :=
  ("output from haproxy:" ++ nl ++ "%v")%string.
Definition msg_sent : string :=
  "HAProxy updated without needing to reload. Commands sent: %d".

Inductive check_run (Sprintf : string -> list logarg -> string)
          (o : InstanceOptions) : list event -> option error -> Prop :=
| check_skipped :
    HAProxyCmd o = "" ->
    check_run Sprintf o
      [ECall Mcheck; ELog LInfo "(test) check was skipped" []] None
| check_passed out :
    HAProxyCmd o <> "" ->
    check_run Sprintf o
      [ECall Mcheck;
       EExec (HAProxyCmd o) ["-c"; "-f"; HAProxyConfigFile o] out None]
      None
| check_failed out e :
    HAProxyCmd o <> "" ->
    check_run Sprintf o
      [ECall Mcheck;
       EExec (HAProxyCmd o) ["-c"; "-f"; HAProxyConfigFile o] out (Some e)]
      (Some (Errorf Sprintf out [])).

Definition warn_output (out : string) : list event :=
  if (0 <? String.length out)%nat then [ELog LWarn msg_output [AStr out]]
  else [].

Inductive reload_run (o : InstanceOptions)
  : list event -> option error -> Prop :=
| reload_skipped :
    ReloadCmd o = "" ->
    reload_run o
      [ECall Mreload; ELog LInfo "(test) reload was skipped" []] None
| reload_ran out err :
    ReloadCmd o <> "" ->
    reload_run o
      ([ECall Mreload;
        EExec (ReloadCmd o) [ReloadStrategy o; HAProxyConfigFile o] out err]
       ++ warn_output out)
      err.

Definition log_validate (err : option error) : list event :=
  match err with
  | Some e => [ELog LError msg_validate [AErr e]]
  | None => []
  end.

(** Lines 158-178, given what the updater reported. *)
Inductive finish_run (Sprintf : string -> list logarg -> string)
          (o : InstanceOptions) (updated : bool) (n : Z)
  : list event -> Prop :=
| finish_unchanged :
    updated = true -> (n <= 0)%Z ->
    finish_run Sprintf o updated n
      [ECall MclearConfig; ELog LInfo "old and new configurations match" []]
| finish_live :
    updated = true -> (0 < n)%Z -> ValidateConfig o = false ->
    finish_run Sprintf o updated n
      [ECall MclearConfig; ELog LInfo msg_sent [AInt n]]
| finish_live_validated chk verr :
    updated = true -> (0 < n)%Z -> ValidateConfig o = true ->
    check_run Sprintf o chk verr ->
    finish_run Sprintf o updated n
      (ECall MclearConfig :: chk ++ log_validate verr
         ++ [ETick "validate"; ELog LInfo msg_sent [AInt n]])
| finish_reloaded rl :
    updated = false -> reload_run o rl None ->
    finish_run Sprintf o updated n
      (ECall MclearConfig :: rl
         ++ [ETick "reload"; ELog LInfo "HAProxy successfully reloaded" []])
| finish_reload_failed rl e :
    updated = false -> reload_run o rl (Some e) ->
    finish_run Sprintf o updated n
      (ECall MclearConfig :: rl ++ [ELog LError msg_reload [AErr e]]).

Definition sort_events (sorted : bool) (c : handle) (bs : list handle)
  : list event :=
  if sorted then EBackends c bs :: map ESortEndpoints bs else [].

(** Lines 124-145 on the path that reaches the updater. *)
Definition patch_events (i : instance) (c : handle) (updated : bool)
           (u' : dynUpdater) (bs : list handle) : list event :=
  [EBuildFrontendGroup c None; EBuildBackendMaps c None;
   EEquals c (oldConfig i) false;
   EDynUpdate {| upd_old := oldConfig i; upd_cur := curConfig i;
                 cmdCnt := 0 |} updated u']
  ++ sort_events (SortBackends (options i)) c bs.

Definition needs_write (updated : bool) (n : Z) : bool :=
  negb updated || (0 <? n)%Z.

(** Lines 139-178, after the comparison found a difference. *)
Inductive patch_run (Sprintf : string -> list logarg -> string)
          (i : instance) (c : handle) : list event -> Prop :=
| patch_write_failed updated u' bs e :
    needs_write updated (cmdCnt u') = true ->
    patch_run Sprintf i c
      (patch_events i c updated u' bs
         ++ [ETemplatesWrite (templates i) c (Some e); ETick "writeTmpl";
             ELog LError "error writing configuration: %v" [AErr e];
             ECall MclearConfig])
| patch_written updated u' bs fin :
    needs_write updated (cmdCnt u') = true ->
    finish_run Sprintf (options i) updated (cmdCnt u') fin ->
    patch_run Sprintf i c
      (patch_events i c updated u' bs
         ++ [ETemplatesWrite (templates i) c None; ETick "writeTmpl"] ++ fin)
| patch_not_written updated u' bs fin :
    needs_write updated (cmdCnt u') = false ->
    finish_run Sprintf (options i) updated (cmdCnt u') fin ->
    patch_run Sprintf i c (patch_events i c updated u' bs ++ fin).

(** One [Update]: the trace it leaves and the instance it leaves. *)
Inductive cycle (Sprintf : string -> list logarg -> string) (i : instance)
  : list event -> instance -> Prop :=
| cycle_empty :
    curConfig i = None ->
    cycle Sprintf i [ELog LInfo "new configuration is empty" []] i
| cycle_groups_failed c e :
    curConfig i = Some c ->
    cycle Sprintf i
      [EBuildFrontendGroup c (Some e);
       ELog LError "error building configuration group: %v" [AErr e];
       ECall MclearConfig]
      (rotate i)
| cycle_maps_failed c e :
    curConfig i = Some c ->
    cycle Sprintf i
      [EBuildFrontendGroup c None; EBuildBackendMaps c (Some e);
       ELog LError "error building backend maps: %v" [AErr e];
       ECall MclearConfig]
      (rotate i)
| cycle_equal c :
    curConfig i = Some c ->
    cycle Sprintf i
      [EBuildFrontendGroup c None; EBuildBackendMaps c None;
       EEquals c (oldConfig i) true;
       ELog (LInfoV 2) "old and new configurations match, skipping reload" [];
       ECall MclearConfig]
      (rotate i)
| cycle_patched c tr :
    curConfig i = Some c ->
    patch_run Sprintf i c tr ->
    cycle Sprintf i tr (rotate i).

(** ** A scripted world for running the code

    Collaborators that answer from a fixed script.  The world is the next
    handle [createConfig] will hand out. *)

Record script : Type := {
  on_BuildFrontendGroup : option error;
  on_BuildBackendMaps : option error;
  on_Equals : bool;
  on_update : bool * Z;
  on_Backends : list handle;
  on_Write : option error;
  on_exec : string -> list string -> string * option error
}.

Definition scripted (s : script) : Collaborators nat := {|
  co_createConfig := fun _ _ n => (n, S n);
  co_BuildFrontendGroup := fun _ n => (on_BuildFrontendGroup s, n);
  co_BuildBackendMaps := fun _ n => (on_BuildBackendMaps s, n);
  co_Equals := fun _ _ n => (on_Equals s, n);
  co_update := fun u n =>
    ((fst (on_update s),
      {| upd_old := upd_old u; upd_cur := upd_cur u;
         cmdCnt := snd (on_update s) |}), n);
  co_Backends := fun _ n => (on_Backends s, n);
  co_SortEndpoints := fun _ n => n;
  co_Write := fun _ _ n => (on_Write s, n);
  co_CombinedOutput := fun name args n => (on_exec s name args, n)
|}.

(** Every command prints nothing and exits with status zero. *)
Definition exec_ok (name : string) (args : list string)
  : string * option error :=
  ("", None).

(** Every command prints [out] and exits with a non-zero status. *)
Definition exec_fails (out : string) (name : string) (args : list string)
  : string * option error :=
  (out, Some (errorString "exit status 1")).

(** The script of a cycle that needs a reload and gets it. *)
Definition script_reload : script := {|
  on_BuildFrontendGroup := None;
  on_BuildBackendMaps := None;
  on_Equals := false;
  on_update := (false, 0%Z);
  on_Backends := [];
  on_Write := None;
  on_exec := exec_ok
|}.

Definition with_update (s : script) (updated : bool) (n : Z) : script := {|
  on_BuildFrontendGroup := on_BuildFrontendGroup s;
  on_BuildBackendMaps := on_BuildBackendMaps s;
  on_Equals := on_Equals s;
  on_update := (updated, n);
  on_Backends := on_Backends s;
  on_Write := on_Write s;
  on_exec := on_exec s
|}.

Definition with_Write (s : script) (err : option error) : script := {|
  on_BuildFrontendGroup := on_BuildFrontendGroup s;
  on_BuildBackendMaps := on_BuildBackendMaps s;
  on_Equals := on_Equals s;
  on_update := on_update s;
  on_Backends := on_Backends s;
  on_Write := err;
  on_exec := on_exec s
|}.

Definition with_Equals (s : script) (b : bool) : script := {|
  on_BuildFrontendGroup := on_BuildFrontendGroup s;
  on_BuildBackendMaps := on_BuildBackendMaps s;
  on_Equals := b;
  on_update := on_update s;
  on_Backends := on_Backends s;
  on_Write := on_Write s;
  on_exec := on_exec s
|}.

Definition with_exec (s : script)
           (f : string -> list string -> string * option error) : script := {|
  on_BuildFrontendGroup := on_BuildFrontendGroup s;
  on_BuildBackendMaps := on_BuildBackendMaps s;
  on_Equals := on_Equals s;
  on_update := on_update s;
  on_Backends := on_Backends s;
  on_Write := on_Write s;
  on_exec := f
|}.

Definition with_BuildFrontendGroup (s : script) (err : option error)
  : script := {|
  on_BuildFrontendGroup := err;
  on_BuildBackendMaps := on_BuildBackendMaps s;
  on_Equals := on_Equals s;
  on_update := on_update s;
  on_Backends := on_Backends s;
  on_Write := on_Write s;
  on_exec := on_exec s
|}.

Definition with_Backends (s : script) (bs : list handle) : script := {|
  on_BuildFrontendGroup := on_BuildFrontendGroup s;
  on_BuildBackendMaps := on_BuildBackendMaps s;
  on_Equals := on_Equals s;
  on_update := on_update s;
  on_Backends := bs;
  on_Write := on_Write s;
  on_exec := on_exec s
|}.

(** Scripts for the paths of a cycle. *)

(** A change the updater applies live with one command. *)
Definition script_live : script := with_update script_reload true 1.

(** The template write fails after the updater asked for a reload. *)
Definition script_write_fails : script :=
  with_Write script_reload (Some (errorString "no space left on device")).

(** The new configuration equals the old one. *)
Definition script_equal : script := with_Equals script_reload true.

(** What [haproxy -c] prints when a [log-format] names an unknown
    variable. *)
Definition haproxy_output : string :=
  "no such format variable 'zz'. If you wanted to emit the '%' character verbatim, you need to use '%%'.".

(** A live update whose validation then fails. *)
Definition script_invalid : script :=
  with_exec script_live (exec_fails haproxy_output).

(** Options as a deployment sets them, with validation on. *)
Definition options0 : InstanceOptions := {|
  MaxOldConfigFiles := 0;
  HAProxyCmd := "haproxy";
  HAProxyConfigFile := "/etc/haproxy/haproxy.cfg";
  ReloadCmd := "/haproxy-reload.sh";
  ReloadStrategy := "native";
  SortBackends := true;
  ValidateConfig := true
|}.

(** An instance as [CreateInstance] leaves it (both slots [nil]), with the
    slots then set to [old] and [cur]. *)
Definition instance0 (old cur : option handle) : instance := {|
  logger := 0;
  bindUtils := 1;
  options := options0;
  templates := 2;
  mapsTemplate := 3;
  mapsDir := "/etc/haproxy/maps";
  oldConfig := old;
  curConfig := cur
|}.

(** Go's [fmt] on a format string without operands, for directives that
    are a percent sign followed directly by a one-byte verb: [%%] prints a
    percent sign, any other verb finds no operand and prints as
    [%!verb(MISSING)], and a percent sign that ends the string prints as
    [%!(NOVERB)]; all other bytes are copied.  Flags, widths, precisions
    and argument indexes are not covered. *)
Fixpoint Sprintf_plain (format : string) : string :=
  match format with
  | EmptyString => EmptyString
  | String c rest =>
      if Ascii.eqb c "%" then
        match rest with
        | EmptyString => "%!(NOVERB)"
        | String v rest' =>
            if Ascii.eqb v "%" then String "%" (Sprintf_plain rest')
            else ("%!" ++ String v "(MISSING)" ++ Sprintf_plain rest')%string
        end
      else String c (Sprintf_plain rest)
  end.

(** The formatter used when running the code on a script; operands are
    never passed to it by this package ([fmt.Errorf(outstr)]). *)
Definition Sprintf0 (format : string) (a : list logarg) : string :=
  Sprintf_plain format.

(** More scripts and instances to run the code on. *)

Definition with_BuildBackendMaps (s : script) (err : option error)
  : script := {|
  on_BuildFrontendGroup := on_BuildFrontendGroup s;
  on_BuildBackendMaps := err;
  on_Equals := on_Equals s;
  on_update := on_update s;
  on_Backends := on_Backends s;
  on_Write := on_Write s;
  on_exec := on_exec s
|}.

Definition script_groups_fail : script :=
  with_BuildFrontendGroup script_reload
    (Some (errorString "duplicate frontend")).

Definition script_maps_fail : script :=
  with_BuildBackendMaps script_reload
    (Some (errorString "cannot write map")).

(** The reload command prints something and fails. *)
Definition script_reload_fails : script :=
  with_exec script_reload (exec_fails "cannot bind socket").

(** The updater finds nothing to send. *)
Definition script_nothing_to_send : script :=
  with_update script_reload true 0.

(** Options of a test run: no command is configured. *)
Definition options_dry : InstanceOptions := {|
  MaxOldConfigFiles := 0;
  HAProxyCmd := "";
  HAProxyConfigFile := "/etc/haproxy/haproxy.cfg";
  ReloadCmd := "";
  ReloadStrategy := "native";
  SortBackends := false;
  ValidateConfig := true
|}.

Definition instance_dry (old cur : option handle) : instance := {|
  logger := 0;
  bindUtils := 1;
  options := options_dry;
  templates := 2;
  mapsTemplate := 3;
  mapsDir := "/etc/haproxy/maps";
  oldConfig := old;
  curConfig := cur
|}.

(** ** More ways of reading a trace *)

Definition is_tick (label : string) (e : event) : bool :=
  match e with ETick l => String.eqb l label | _ => false end.

Definition is_any_tick (e : event) : bool :=
  match e with ETick _ => true | _ => false end.

Definition is_log (e : event) : bool :=
  match e with ELog _ _ _ => true | _ => false end.

Definition is_error_log (e : event) : bool :=
  match e with ELog LError _ _ => true | _ => false end.

Definition is_equals (e : event) : bool :=
  match e with EEquals _ _ _ => true | _ => false end.

(** 1 when the slot holds a generation, 0 when it is [nil]. *)
Definition present (slot : option handle) : nat :=
  match slot with Some _ => 1 | None => 0 end.

(** Two instances agree on everything but the slots. *)
Definition same_settings (i j : instance) : Prop :=
  logger i = logger j /\ bindUtils i = bindUtils j
  /\ options i = options j /\ templates i = templates j
  /\ mapsTemplate i = mapsTemplate j /\ mapsDir i = mapsDir j.

(** ** Sequences of calls on one instance *)

Inductive op : Type :=
| OpConfig
| OpUpdate.

Definition step_op {W} (Sprintf : string -> list logarg -> string)
           (co : Collaborators W) (o : op) : M W unit :=
  match o with
  | OpConfig => Config co ;; ret tt
  | OpUpdate => Update Sprintf co
  end.

(** The calls of [ops], one after the other. *)
Definition run_ops {W} (Sprintf : string -> list logarg -> string)
           (co : Collaborators W) (ops : list op) : M W unit :=
  range ops (step_op Sprintf co).

Definition count_op (o : op) (ops : list op) : nat :=
  List.length (filter (fun x => match x, o with
                                | OpConfig, OpConfig => true
                                | OpUpdate, OpUpdate => true
                                | _, _ => false
                                end) ops).

(** ** Templates: [CreateInstance] and [ParseTemplates]

    The template sets belong to the [template] package; the instance only
    creates them, clears them and registers templates with them. *)

Inductive tmpl_event : Type :=
| TCreateConfig (res : handle)
| TClearTemplates (t : handle)
| TNewTemplate (t : handle) (name file output : string)
               (rotate sizeHint : Z) (err : option error).

Record TemplateOps (W : Type) : Type := {
  to_CreateConfig : W -> handle * W;
  to_ClearTemplates : handle -> W -> W;
  to_NewTemplate :
    handle -> string -> string -> string -> Z -> Z -> W -> option error * W
}.

(** State passing over the world, with the trace of template calls. *)
Definition T (W A : Type) : Type := W -> A * W * list tmpl_event.

Definition tret {W A} (a : A) : T W A := fun w => (a, w, []).

Definition tbind {W A B} (m : T W A) (f : A -> T W B) : T W B :=
  fun w =>
    match m w with
    | (a, w1, t1) =>
        match f a w1 with
        | (b, w2, t2) => (b, w2, t1 ++ t2)
        end
    end.

Section Templates.

Context {W : Type}.
Variable ops : TemplateOps W.

(** [template.CreateConfig()] *)
Definition CreateConfig : T W handle :=
  fun w => match to_CreateConfig ops w with
           | (t, w1) => (t, w1, [TCreateConfig t])
           end.

Definition ClearTemplates (t : handle) : T W unit :=
  fun w => (tt, to_ClearTemplates ops t w, [TClearTemplates t]).

Definition NewTemplate (t : handle) (name file output : string)
           (rotate sizeHint : Z) : T W (option error) :=
  fun w => match to_NewTemplate ops t name file output rotate sizeHint w with
           | (err, w1) =>
               (err, w1, [TNewTemplate t name file output rotate sizeHint err])
           end.

(** [func CreateInstance(logger, bindUtils, options) Instance] *)
Definition CreateInstance (logger bindUtils : handle)
           (options : InstanceOptions) : T W instance :=
  tbind CreateConfig (fun t =>
  tbind CreateConfig (fun mt =>
  tret {| logger := logger;
          bindUtils := bindUtils;
          options := options;
          templates := t;
          mapsTemplate := mt;
          mapsDir := "/etc/haproxy/maps";
          oldConfig := None;
          curConfig := None |})).

(** [func (i *instance) ParseTemplates() error] *)
Definition ParseTemplates (i : instance) : T W (option error) :=
  tbind (ClearTemplates (templates i)) (fun _ =>
  tbind (ClearTemplates (mapsTemplate i)) (fun _ =>
  tbind (NewTemplate (templates i)
           "spoe-modsecurity.tmpl"
           "/etc/haproxy/modsecurity/spoe-modsecurity.tmpl"
           "/etc/haproxy/spoe-modsecurity.conf"
           0 1024) (fun err =>
  match err with
  | Some err => tret (Some err)
  | None =>
  tbind (NewTemplate (templates i)
           "haproxy.tmpl"
           "/etc/haproxy/template/haproxy.tmpl"
           "/etc/haproxy/haproxy.cfg"
           (MaxOldConfigFiles (options i)) 16384) (fun err =>
  match err with
  | Some err => tret (Some err)
  | None =>
  tbind (NewTemplate (mapsTemplate i)
           "map.tmpl"
           "/etc/haproxy/maptemplate/map.tmpl"
           ""
           0 2048) (fun err =>
  tret err)
  end)
  end))).

End Templates.

Definition is_clear (e : tmpl_event) : bool :=
  match e with TClearTemplates _ => true | _ => false end.

Definition is_new (e : tmpl_event) : bool :=
  match e with TNewTemplate _ _ _ _ _ _ _ => true | _ => false end.

(** A registration that returned an error. *)
Definition is_failed_new (e : tmpl_event) : bool :=
  match e with TNewTemplate _ _ _ _ _ _ (Some _) => true | _ => false end.

(** The template named [name] was registered with set [t]. *)
Definition registers (t : handle) (name : string) (e : tmpl_event) : bool :=
  match e with
  | TNewTemplate t' name' _ _ _ _ _ => Nat.eqb t' t && String.eqb name' name
  | _ => false
  end.

(** The three registrations of [ParseTemplates], with the results
    [e1], [e2], [e3] they returned. *)
Definition registrations (i : instance) (e1 e2 e3 : option error)
  : list tmpl_event :=
  [TNewTemplate (templates i) "spoe-modsecurity.tmpl"
                "/etc/haproxy/modsecurity/spoe-modsecurity.tmpl"
                "/etc/haproxy/spoe-modsecurity.conf" 0 1024 e1;
   TNewTemplate (templates i) "haproxy.tmpl"
                "/etc/haproxy/template/haproxy.tmpl"
                "/etc/haproxy/haproxy.cfg"
                (MaxOldConfigFiles (options i)) 16384 e2;
   TNewTemplate (mapsTemplate i) "map.tmpl"
                "/etc/haproxy/maptemplate/map.tmpl" "" 0 2048 e3].

(** Template sets kept in a scripted world: the world is the next handle
    to hand out, and registering the template named [name] answers
    [fails name]. *)
Definition scripted_templates (fails : string -> option error)
  : TemplateOps nat := {|
  to_CreateConfig := fun n => (n, S n);
  to_ClearTemplates := fun _ n => n;
  to_NewTemplate := fun _ name _ _ _ _ n => (fails name, n)
|}.

Definition no_failure (name : string) : option error := None.

Definition fails_on (bad : string) (name : string) : option error :=
  if String.eqb name bad then Some (errorString "template: parse error")
  else None.

(** ** Soundness of the cycle rules

    Every run of the code is an instance of the rules above; the
    statements about cycles are then read off the rules. *)

Section Soundness.
Context {W : Type}.
Variable Sprintf : string -> list logarg -> string.
Variable co : Collaborators W.

(** The sorting loop touches neither slot and leaves one entry per
    backend. *)
Lemma range_sort_run (bs : list handle) :
  forall i w,
    range bs (SortEndpoints co) i w =
    Out tt i (fold_left (fun w b => co_SortEndpoints co b w) bs w)
        (map ESortEndpoints bs).
Proof.
  induction bs as [|b bs IH]; intros i w; [reflexivity|].
  cbn [range]. unfold bind at 1. cbn [SortEndpoints].
  rewrite IH. reflexivity.
Qed.

(** [check], [reload] and the two halves of [Update] follow their
    rules and leave the instance as the rules say. *)
Lemma check_sound (i : instance) (w : W) :
  check_run Sprintf (options i)
            (trace (check Sprintf co i w)) (value (check Sprintf co i w))
  /\ inst (check Sprintf co i w) = i.
Proof.
  unfold check, bind, field, emit, logger_Info, CombinedOutput, call, ret.
  cbn.
  destruct (String.eqb (HAProxyCmd (options i)) "") eqn:Hcmd; cbn.
  - split; [|reflexivity]. apply check_skipped. now apply String.eqb_eq.
  - apply String.eqb_neq in Hcmd.
    destruct (co_CombinedOutput co _ _ w) as [[out [e|]] w']; cbn;
      (split; [|reflexivity]).
    + now apply check_failed.
    + now apply check_passed.
Qed.

Lemma reload_sound (i : instance) (w : W) :
  reload_run (options i) (trace (reload co i w)) (value (reload co i w))
  /\ inst (reload co i w) = i.
Proof.
  unfold reload, bind, field, emit, logger_Info, logger_Warn,
    CombinedOutput, call, ret.
  cbn.
  destruct (String.eqb (ReloadCmd (options i)) "") eqn:Hcmd; cbn.
  - split; [|reflexivity]. apply reload_skipped. now apply String.eqb_eq.
  - apply String.eqb_neq in Hcmd.
    destruct (co_CombinedOutput co _ _ w) as [[out err] w']; cbn.
    pose proof (@reload_ran (options i) out err Hcmd) as R.
    unfold warn_output in R.
    destruct out as [|ch out']; destruct err; cbn in *;
      (split; [exact R|reflexivity]).
Qed.

Lemma finish_sound (updated : bool) (u : dynUpdater) (i : instance) (w : W) :
  finish_run Sprintf (options i) updated (cmdCnt u)
             (trace (Update_finish Sprintf co updated u i w))
  /\ inst (Update_finish Sprintf co updated u i w) = rotate i.
Proof.
  unfold Update_finish, clearConfig, bind, field, assign, emit, ret,
    logger_Info, logger_Error, timer_Tick, rotate, set_curConfig,
    set_oldConfig.
  cbn -[check reload].
  destruct updated.
  - destruct (0 <? cmdCnt u)%Z eqn:Hn.
    + apply Z.ltb_lt in Hn.
      match goal with
      | |- context [if ValidateConfig ?o then _ else _] =>
          destruct (ValidateConfig o) eqn:Hv
      end; cbn in Hv.
      * cbn -[check].
        match goal with
        | |- context [check Sprintf co ?i' ?w'] =>
            destruct (check_sound i' w') as [Hc Hi];
            destruct (check Sprintf co i' w') as [v i1 w1 t1]
        end.
        cbn in Hc, Hi. subst i1.
        pose proof (@finish_live_validated Sprintf (options i) true (cmdCnt u) t1 v
                      eq_refl Hn Hv Hc) as F.
        destruct v; cbn in *; rewrite <- ?app_assoc; cbn;
          (split; [exact F|reflexivity]).
      * cbn. split; [|reflexivity]. now apply finish_live.
    + apply Z.ltb_ge in Hn. cbn. split; [|reflexivity].
      now apply finish_unchanged.
  - cbn -[reload].
    match goal with
    | |- context [reload co ?i' ?w'] =>
        destruct (reload_sound i' w') as [Hr Hi];
        destruct (reload co i' w') as [v i1 w1 t1]
    end.
    cbn in Hr, Hi. subst i1.
    destruct v as [e|]; cbn; rewrite <- ?app_assoc; cbn;
      (split; [|reflexivity]).
    + now apply finish_reload_failed.
    + now apply finish_reloaded.
Qed.

Ltac use_finish :=
  match goal with
  | |- context [Update_finish Sprintf co ?b ?u ?i' ?w'] =>
      let F := fresh "F" in
      let Hi := fresh "Hi" in
      destruct (finish_sound b u i' w') as [F Hi];
      destruct (Update_finish Sprintf co b u i' w') as [? ?i ?w fin];
      cbn in F, Hi; subst
  end.

Ltac close_patch P :=
  unfold patch_events, sort_events in P;
  match goal with
  | Hs : SortBackends _ = _ |- _ => rewrite Hs in P
  end;
  cbn in P |- *; rewrite <- ?app_assoc in P |- *; exact P.

Lemma patch_sound (c : handle) (i : instance) (w : W) :
  patch_run Sprintf i c
    ([EBuildFrontendGroup c None; EBuildBackendMaps c None;
      EEquals c (oldConfig i) false]
       ++ trace (Update_patch Sprintf co c i w))
  /\ inst (Update_patch Sprintf co c i w) = rotate i.
Proof.
  unfold Update_patch, newDynUpdater, update, Backends, templates_Write,
    clearConfig, bind, field, assign, emit, call, ret, logger_Error,
    timer_Tick.
  cbn -[Update_finish range].
  destruct (co_update co _ w) as [[updated u'] w1].
  cbn -[Update_finish range].
  destruct (SortBackends (options i)) eqn:Hs.
  - destruct (co_Backends co c w1) as [bs w2]. rewrite range_sort_run.
    cbn -[Update_finish].
    destruct (negb updated || (0 <? cmdCnt u')%Z) eqn:Hw.
    + destruct (co_Write co _ _ _) as [[e|] w3];
        cbn -[Update_finish].
      * split; [|reflexivity].
        pose proof (@patch_write_failed Sprintf i c updated u' bs e Hw) as P.
        now close_patch P.
      * use_finish. cbn. split; [|reflexivity].
        pose proof (@patch_written Sprintf i c updated u' bs fin Hw F) as P.
        now close_patch P.
    + use_finish. cbn. split; [|reflexivity].
      pose proof (@patch_not_written Sprintf i c updated u' bs fin Hw F) as P.
      now close_patch P.
  - cbn -[Update_finish].
    destruct (negb updated || (0 <? cmdCnt u')%Z) eqn:Hw.
    + destruct (co_Write co _ _ _) as [[e|] w3];
        cbn -[Update_finish].
      * split; [|reflexivity].
        pose proof (@patch_write_failed Sprintf i c updated u' [] e Hw) as P.
        now close_patch P.
      * use_finish. cbn. split; [|reflexivity].
        pose proof (@patch_written Sprintf i c updated u' [] fin Hw F) as P.
        now close_patch P.
    + use_finish. cbn. split; [|reflexivity].
      pose proof (@patch_not_written Sprintf i c updated u' [] fin Hw F) as P.
      now close_patch P.
Qed.

(** Every run of [Update] is a cycle. *)
Theorem Update_cycle (i : instance) (w : W) :
  cycle Sprintf i (trace (Update Sprintf co i w))
        (inst (Update Sprintf co i w)).
Proof.
  unfold Update, BuildFrontendGroup, BuildBackendMaps, Equals, clearConfig,
    bind, field, assign, emit, call, ret, logger_Info, logger_InfoV,
    logger_Error.
  cbn -[Update_patch].
  destruct (curConfig i) as [c|] eqn:Hc; cbn -[Update_patch].
  2: { now apply cycle_empty. }
  destruct (co_BuildFrontendGroup co c w) as [[e|] w1]; cbn -[Update_patch].
  1: { now apply cycle_groups_failed. }
  destruct (co_BuildBackendMaps co c w1) as [[e|] w2]; cbn -[Update_patch].
  1: { now apply cycle_maps_failed. }
  destruct (co_Equals co c (oldConfig i) w2) as [[|] w3];
    cbn -[Update_patch].
  1: { now apply cycle_equal. }
  destruct (patch_sound c i w3) as [P Hi].
  destruct (Update_patch Sprintf co c i w3) as [v i1 w4 tr].
  cbn in P, Hi |- *. subst i1.
  now apply cycle_patched with (c := c).
Qed.

(** *** Traces and the sorting loop *)

Lemma existsb_skip_sort (p : event -> bool) (bs : list handle)
      (rest : list event) :
  (forall b, p (ESortEndpoints b) = false) ->
  existsb p (map ESortEndpoints bs ++ rest) = existsb p rest.
Proof.
  intros Hp. induction bs as [|b bs IH]; cbn; [reflexivity|].
  now rewrite Hp, IH.
Qed.

Lemma filter_skip_sort (p : event -> bool) (bs : list handle)
      (rest : list event) :
  (forall b, p (ESortEndpoints b) = false) ->
  filter p (map ESortEndpoints bs ++ rest) = filter p rest.
Proof.
  intros Hp. induction bs as [|b bs IH]; cbn; [reflexivity|].
  now rewrite Hp, IH.
Qed.

Lemma In_skip_sort (e : event) (bs : list handle) (rest : list event) :
  is_sorting e = false ->
  In e (map ESortEndpoints bs ++ rest) -> In e rest.
Proof.
  intros He H. apply in_app_or in H. destruct H as [H|H]; [|exact H].
  apply in_map_iff in H. destruct H as (b & <- & _). discriminate He.
Qed.

(** Proofs about a cycle: take the rule the run follows, go down to the
    rules of its parts, and compute on the trace that results. *)
Ltac start_cycle i w :=
  let C := fresh "C" in
  pose proof (Update_cycle i w) as C;
  destruct (Update Sprintf co i w) as [?v ?i' ?w' ?tr];
  cbn [trace inst value world] in *.

Ltac invert_runs :=
  repeat match goal with
         | H : cycle _ _ _ _ |- _ => inversion H; clear H; subst
         | H : patch_run _ _ _ _ |- _ => inversion H; clear H; subst
         | H : finish_run _ _ _ _ _ |- _ => inversion H; clear H; subst
         | H : check_run _ _ _ _ |- _ => inversion H; clear H; subst
         | H : reload_run _ _ _ |- _ => inversion H; clear H; subst
         end.

Ltac expose :=
  unfold patch_events, sort_events, warn_output, log_validate,
    builds_succeeded, updater_reported, write_failed, occurs, times in *;
  repeat match goal with
         | |- context [SortBackends ?o] => destruct (SortBackends o)
         | H : context [SortBackends ?o] |- _ => destruct (SortBackends o)
         | |- context [String.length ?s] => is_var s; destruct s
         | H : context [String.length ?s] |- _ => is_var s; destruct s
         end;
  cbn in *.

Ltac skip_sort :=
  repeat first
    [ rewrite existsb_skip_sort by (intro; reflexivity)
    | rewrite filter_skip_sort by (intro; reflexivity) ];
  cbn.

Ltac pick H :=
  repeat match type of H with
         | _ \/ _ => destruct H as [H|H]; [try discriminate H|]
         | In _ (map ESortEndpoints _ ++ _) =>
             apply In_skip_sort in H; [cbn in H|reflexivity]
         | False => contradiction
         end.

(** A cycle that had a current generation leaves the slots rotated. *)
Lemma slots_after_cycle (i : instance) (w : W) (c : handle) :
  curConfig i = Some c ->
  inst (Update Sprintf co i w) = rotate i.
Proof.
  intros Hc. start_cycle i w. invert_runs; congruence.
Qed.

(** C3.  A cycle that starts with a current generation rotates exactly
    once, whichever way it ends: afterwards the old slot holds the
    generation that was current, the current slot is empty, nothing else in
    the instance has changed, and [clearConfig] was called once. *)
Theorem rotation_exactly_once (i : instance) (w : W) (c : handle) :
  curConfig i = Some c ->
  let r := Update Sprintf co i w in
  oldConfig (inst r) = Some c
  /\ curConfig (inst r) = None
  /\ inst r = rotate i
  /\ times is_rotate (trace r) = 1.
Proof.
  intros Hc r. subst r. start_cycle i w.
  invert_runs; try congruence; expose; skip_sort; auto.
Qed.

Ltac same_event H :=
  pick H; inversion H; clear H; subst.

Ltac gating :=
  unfold needs_write in *;
  repeat match goal with
         | H : negb ?b || _ = _ |- _ => destruct b; cbn in H
         | H : (_ <? _)%Z = true |- _ => apply Z.ltb_lt in H
         | H : (_ <? _)%Z = false |- _ => apply Z.ltb_ge in H
         end;
  intuition (try discriminate; try congruence; try lia).

(** C1.  In a cycle whose two build phases succeed and whose comparison
    finds a difference, the updater is called exactly once, and for
    whatever pair (updated, cmdCnt) it reports the templates are written if
    and only if updated is false or cmdCnt is positive; with updated true
    and cmdCnt zero nothing is written. *)
Theorem write_gating (i : instance) (w : W) (c : handle) :
  curConfig i = Some c ->
  let tr := trace (Update Sprintf co i w) in
  builds_succeeded c tr ->
  In (EEquals c (oldConfig i) false) tr ->
  (exists updated n, updater_reported updated n tr)
  /\ times is_update tr = 1
  /\ (forall updated n,
        updater_reported updated n tr ->
        (occurs is_write tr = true <-> updated = false \/ (0 < n)%Z)
        /\ (updated = true -> n = 0%Z -> occurs is_write tr = false)).
Proof.
  intros Hc tr [Hb1 Hb2] Hne. subst tr. start_cycle i w.
  inversion C; clear C; subst; try congruence;
    try (cbn in Hne; pick Hne; fail);
    try (cbn in Hb1; pick Hb1; fail);
    try (cbn in Hb2; pick Hb2; fail).
  clear Hb1 Hb2 Hne.
  split; [|split].
  - match goal with
    | H : patch_run _ _ _ _ |- _ => inversion H; clear H; subst
    end;
    eexists _, _; unfold updater_reported, patch_events;
      eexists _, _; (split; [cbn; eauto|reflexivity]).
  - invert_runs; expose; skip_sort; reflexivity.
  - intros updated n (u & u' & Hin & Hn).
    invert_runs; expose; same_event Hin; skip_sort; gating.
Qed.

Ltac find_event :=
  cbn;
  repeat first [ left; reflexivity | right | apply in_or_app; right; cbn ].

(** C2, as amended.  In any cycle [reload] is invoked if and only if the
    updater reported updated=false and no template write failed; it is
    never invoked when the updater reported updated=true. *)
Theorem reload_gating_amended (i : instance) (w : W) :
  let tr := trace (Update Sprintf co i w) in
  (occurs is_reload tr = true <->
   (exists n, updater_reported false n tr) /\ ~ write_failed tr)
  /\ (forall n, updater_reported true n tr -> occurs is_reload tr = false).
Proof.
  intros tr. subst tr. start_cycle i w.
  split.
  - split.
    + intros Hr.
      invert_runs; expose; skip_sort; revert Hr; skip_sort; intros Hr;
        try discriminate Hr;
        (split;
         [ eexists; eexists _, _; split; [find_event|reflexivity]
         | intros (t & c0 & e0 & Hin); pick Hin ]).
    + intros [(n & u & u' & Hin & _) Hnf].
      invert_runs; expose; skip_sort; try reflexivity; exfalso;
        first [ solve [same_event Hin]
              | apply Hnf; eexists _, _, _; find_event ].
  - intros n (u & u' & Hin & _).
    invert_runs; expose; same_event Hin; skip_sort; reflexivity.
Qed.

(** C4.  When the template write returns an error, the cycle ends right
    there: the timing tick, the error logged, the rotation of the current
    generation into the old slot, and nothing after it.  [reload] and [check]
    are never invoked and no command is executed. *)
Theorem write_failure_aborts (i : instance) (w : W) (t c : handle)
        (e : error) :
  let r := Update Sprintf co i w in
  In (ETemplatesWrite t c (Some e)) (trace r) ->
  (exists pre,
      trace r =
      pre ++ [ETemplatesWrite t c (Some e); ETick "writeTmpl";
              ELog LError "error writing configuration: %v" [AErr e];
              ECall MclearConfig]
      /\ occurs is_rotate pre = false)
  /\ occurs is_reload (trace r) = false
  /\ occurs is_check (trace r) = false
  /\ occurs is_exec (trace r) = false
  /\ curConfig i = Some c
  /\ inst r = rotate i.
Proof.
  intros r Hin. subst r. start_cycle i w.
  invert_runs; expose; same_event Hin.
  all: skip_sort.
  all: (split; [|auto]).
  all: match goal with
       | |- exists pre, ?a :: ?b :: ?c :: ?d :: ?x :: ?m ++ ?rest
                        = pre ++ ?rest /\ _ =>
           exists (a :: b :: c :: d :: x :: m)
       | |- exists pre, ?a :: ?b :: ?c :: ?d :: ?rest = pre ++ ?rest /\ _ =>
           exists [a; b; c; d]
       end.
  all: split; [reflexivity|].
  all: cbn; rewrite ?existsb_skip_sort by (intro; reflexivity).
  all: try rewrite <- (app_nil_r (map ESortEndpoints _)).
  all: rewrite ?existsb_skip_sort by (intro; reflexivity); reflexivity.
Qed.

(** C5.  With an empty current slot [Update] logs one informational line
    and returns: the instance (hence the old slot) and the world are left as
    they were, there is no rotation, and no build, patch, write, validate
    or reload takes place. *)
Theorem Update_without_current (i : instance) (w : W) :
  curConfig i = None ->
  let r := Update Sprintf co i w in
  r = Out tt i w [ELog LInfo "new configuration is empty" []]
  /\ oldConfig (inst r) = oldConfig i
  /\ times is_rotate (trace r) = 0
  /\ occurs is_build (trace r) = false
  /\ occurs is_update (trace r) = false
  /\ occurs is_write (trace r) = false
  /\ occurs is_check (trace r) = false
  /\ occurs is_reload (trace r) = false
  /\ occurs is_exec (trace r) = false.
Proof.
  intros Hc r.
  assert (E : r = Out tt i w [ELog LInfo "new configuration is empty" []]).
  { subst r. unfold Update, bind, field. cbn. rewrite Hc. reflexivity. }
  rewrite E. cbn. repeat split; reflexivity.
Qed.

(** C6.  When both build phases succeed and the current generation
    compares equal to the old one, the cycle consists of the two builds,
    the comparison, one verbose log line and the rotation: no template
    write, no call of the dynamic updater, no reload, no command executed,
    and the current generation ends up in the old slot. *)
Theorem equal_cycle_is_noop (i : instance) (w : W) (c : handle) :
  curConfig i = Some c ->
  let r := Update Sprintf co i w in
  builds_succeeded c (trace r) ->
  In (EEquals c (oldConfig i) true) (trace r) ->
  trace r =
    [EBuildFrontendGroup c None; EBuildBackendMaps c None;
     EEquals c (oldConfig i) true;
     ELog (LInfoV 2) "old and new configurations match, skipping reload" [];
     ECall MclearConfig]
  /\ occurs is_write (trace r) = false
  /\ occurs is_update (trace r) = false
  /\ occurs is_reload (trace r) = false
  /\ occurs is_exec (trace r) = false
  /\ times is_rotate (trace r) = 1
  /\ oldConfig (inst r) = Some c
  /\ curConfig (inst r) = None.
Proof.
  intros Hc r [Hb1 Hb2] Heq. subst r. start_cycle i w.
  inversion C; clear C; subst; try congruence;
    try (cbn in Heq; pick Heq; fail).
  2: { invert_runs; expose; pick Heq. }
  assert (c0 = c) by congruence. subst c0.
  cbn. rewrite Hc. repeat split; reflexivity.
Qed.

Ltac prefix_of L S :=
  match L with
  | S => constr:(@nil event)
  | ?x :: ?L' => let p := prefix_of L' S in constr:(x :: p)
  | ?m ++ ?L' => let p := prefix_of L' S in constr:(m ++ p)
  end.

Ltac cut_before_suffix :=
  match goal with
  | |- exists pre, ?L = pre ++ ?S /\ _ =>
      let p := prefix_of L S in
      exists p; split; [cbn; rewrite <- ?app_assoc; reflexivity|]
  end.

(** C7.  With validation enabled, when the updater reports updated=true
    with a positive command count and the validation command fails, the
    cycle ends with: rotation, the failed check, the validation error
    logged, the timing tick, and the success summary carrying the command
    count.  The rotation precedes the check, it is the only one, and
    [reload] is not invoked. *)
Theorem validation_failure_is_advisory (i : instance) (w : W) (n : Z)
        (out : string) (e : error) :
  let r := Update Sprintf co i w in
  ValidateConfig (options i) = true ->
  updater_reported true n (trace r) ->
  (0 < n)%Z ->
  In (EExec (HAProxyCmd (options i))
            ["-c"; "-f"; HAProxyConfigFile (options i)] out (Some e))
     (trace r) ->
  (exists pre,
      trace r =
      pre ++ [ECall MclearConfig; ECall Mcheck;
              EExec (HAProxyCmd (options i))
                    ["-c"; "-f"; HAProxyConfigFile (options i)] out (Some e);
              ELog LError msg_validate [AErr (Errorf Sprintf out [])];
              ETick "validate"; ELog LInfo msg_sent [AInt n]]
      /\ occurs is_rotate pre = false)
  /\ occurs is_reload (trace r) = false
  /\ times is_rotate (trace r) = 1
  /\ inst r = rotate i.
Proof.
  intros r Hv (u & u' & Hrep & Hn) Hpos Hexec. subst r. start_cycle i w.
  invert_runs; expose; same_event Hrep; same_event Hexec.
  all: skip_sort.
  all: (split; [|auto]).
  all: cut_before_suffix.
  all: cbn; skip_sort; reflexivity.
Qed.

(** *** Order of events *)

Lemma each_preceded_seen (p q : event -> bool) (tr : list event) :
  forall seen,
    each_preceded p q seen tr = true ->
    forall l1 x l2,
      tr = l1 ++ x :: l2 -> q x = true -> seen || existsb p l1 = true.
Proof.
  induction tr as [|a tr IH]; intros seen H l1 x l2 E Hq.
  - destruct l1; discriminate E.
  - cbn in H. apply andb_true_iff in H. destruct H as [Ha Htr].
    destruct l1 as [|b l1]; cbn in E; injection E as -> ->.
    + rewrite Hq in Ha. subst seen. reflexivity.
    + cbn. rewrite orb_assoc. now apply (IH _ Htr l1 x l2).
Qed.

Lemma each_preceded_sound (p q : event -> bool) (tr : list event) :
  each_preceded p q false tr = true -> preceded_by p q tr.
Proof.
  intros H l1 x l2 E Hq.
  now apply (@each_preceded_seen p q tr false H l1 x l2 E Hq).
Qed.

Lemma none_after_sound (p q : event -> bool) (tr : list event) :
  none_after p q tr = true -> never_after p q tr.
Proof.
  induction tr as [|a tr IH]; intros H l1 x l2 E Hq.
  - destruct l1; discriminate E.
  - cbn in H. apply andb_true_iff in H. destruct H as [Ha Htr].
    destruct l1 as [|b l1]; cbn in E; injection E as -> ->.
    + rewrite Hq in Ha. now apply negb_true_iff in Ha.
    + now apply (IH Htr l1 x l2).
Qed.

Lemma each_preceded_skip_sort (p q : event -> bool) (bs : list handle)
      (rest : list event) (seen : bool) :
  (forall b, p (ESortEndpoints b) = false) ->
  (forall b, q (ESortEndpoints b) = false) ->
  each_preceded p q seen (map ESortEndpoints bs ++ rest) =
  each_preceded p q seen rest.
Proof.
  intros Hp Hq. induction bs as [|b bs IH]; cbn; [reflexivity|].
  now rewrite Hp, Hq, orb_false_r, IH.
Qed.

Lemma none_after_skip_sort (p q : event -> bool) (bs : list handle)
      (rest : list event) :
  (forall b, p (ESortEndpoints b) = false) ->
  (forall b, q (ESortEndpoints b) = false) ->
  none_after p q (map ESortEndpoints bs ++ rest) = none_after p q rest.
Proof.
  intros Hp Hq. induction bs as [|b bs IH]; cbn; [reflexivity|].
  now rewrite Hq, IH.
Qed.

Ltac order :=
  cbn;
  repeat first
    [ rewrite each_preceded_skip_sort by (intro; reflexivity)
    | rewrite none_after_skip_sort by (intro; reflexivity)
    | rewrite existsb_skip_sort by (intro; reflexivity) ];
  cbn; rewrite ?Nat.eqb_refl; reflexivity.

(** C9.  In a cycle that reaches the patch step the updater is called
    once; every template write comes after that call; no template write
    comes after a reload; and every reload comes after a successful write
    of the templates from the same current generation (hence after the
    updater call as well). *)
Theorem patch_write_reload_order (i : instance) (w : W) (c : handle) :
  curConfig i = Some c ->
  let tr := trace (Update Sprintf co i w) in
  occurs is_update tr = true ->
  times is_update tr = 1
  /\ preceded_by is_update is_write tr
  /\ never_after is_write is_reload tr
  /\ preceded_by (is_written c) is_reload tr
  /\ preceded_by is_update is_reload tr.
Proof.
  intros Hc tr Hup. subst tr. start_cycle i w.
  invert_runs; try congruence; try discriminate Hup.
  all: match goal with
       | H1 : curConfig ?j = Some ?a, H2 : curConfig ?j = Some ?b |- _ =>
           assert (a = b) by congruence; subst a
       end.
  all: expose; clear Hup.
  all: try match goal with H : true = false |- _ => discriminate H end.
  all: split; [skip_sort; reflexivity|].
  all: split; [apply each_preceded_sound; order|].
  all: split; [apply none_after_sound; order|].
  all: split; apply each_preceded_sound; order.
Qed.

(** *** [Config] and [check] *)

Lemma Config_run (i : instance) (w : W) :
  Config co i w =
  match curConfig i with
  | Some c => Out c i w []
  | None =>
      let o := {| opt_mapsTemplate := mapsTemplate i;
                  opt_mapsDir := mapsDir i |} in
      let r := co_createConfig co (bindUtils i) o w in
      Out (fst r) (set_curConfig i (Some (fst r))) (snd r)
          [ECreateConfig (bindUtils i) o (fst r)]
  end.
Proof.
  unfold Config, createConfig, bind, field, assign, call, ret. cbn.
  destruct (curConfig i) as [c|]; [reflexivity|]. cbn.
  destruct (co_createConfig co _ _ w) as [r w1]. reflexivity.
Qed.

(** C10.  [Config] returns the current generation when there is one and
    leaves everything untouched; otherwise it calls [createConfig] once,
    installs the result as current and returns it.  A second [Config]
    right after the first returns the same generation and creates nothing.
    After an [Update] that started with a current generation the slot is
    empty again, so the next [Config] creates a generation anew. *)
Theorem Config_lazy (i : instance) (w : W) :
  Config co i w =
    match curConfig i with
    | Some c => Out c i w []
    | None =>
        let o := {| opt_mapsTemplate := mapsTemplate i;
                    opt_mapsDir := mapsDir i |} in
        let r := co_createConfig co (bindUtils i) o w in
        Out (fst r) (set_curConfig i (Some (fst r))) (snd r)
            [ECreateConfig (bindUtils i) o (fst r)]
    end
  /\ (let r1 := Config co i w in
      curConfig (inst r1) = Some (value r1)
      /\ Config co (inst r1) (world r1) =
         Out (value r1) (inst r1) (world r1) [])
  /\ (curConfig i <> None ->
      let u := Update Sprintf co i w in
      let r := Config co (inst u) (world u) in
      curConfig (inst u) = None
      /\ times is_create (trace r) = 1
      /\ curConfig (inst r) = Some (value r)).
Proof.
  split; [apply Config_run|]. split.
  - cbn zeta. rewrite (Config_run i w).
    destruct (curConfig i) as [c|] eqn:Hc; cbn [value inst world].
    + split; [exact Hc|]. rewrite Config_run, Hc. reflexivity.
    + rewrite Config_run. cbn. split; reflexivity.
  - intros Hc. cbn zeta.
    destruct (curConfig i) as [c|] eqn:Hcur; [clear Hc|congruence].
    rewrite Config_run, (@slots_after_cycle i w c Hcur).
    cbn. repeat split; reflexivity.
Qed.

(** [check] with no command configured: success, and nothing is
    executed. *)
Lemma check_without_command (i : instance) (w : W) :
  HAProxyCmd (options i) = "" ->
  check Sprintf co i w =
  Out None i w [ECall Mcheck; ELog LInfo "(test) check was skipped" []].
Proof.
  intros H. unfold check, bind, field, emit, logger_Info, ret. cbn.
  rewrite H. reflexivity.
Qed.

(** [check] with a command configured: the command is run on the
    configuration file; success when it succeeds, otherwise an error
    whose text is the output formatted as a format string. *)
Lemma check_with_command (i : instance) (w : W) :
  HAProxyCmd (options i) <> "" ->
  let args := ["-c"; "-f"; HAProxyConfigFile (options i)] in
  let r := co_CombinedOutput co (HAProxyCmd (options i)) args w in
  check Sprintf co i w =
  Out (match snd (fst r) with
       | Some _ => Some (Errorf Sprintf (fst (fst r)) [])
       | None => None
       end)
      i (snd r)
      [ECall Mcheck;
       EExec (HAProxyCmd (options i)) args (fst (fst r)) (snd (fst r))].
Proof.
  intros H. apply String.eqb_neq in H.
  unfold check, bind, field, emit, CombinedOutput, call, ret. cbn.
  rewrite H. cbn.
  destruct (co_CombinedOutput co _ _ w) as [[out [e|]] w1]; reflexivity.
Qed.

(** *** More about single cycles *)

Lemma bind_out {A B : Type} (m : M W A) (f : A -> M W B) (i : instance)
      (w : W) :
  bind m f i w =
  Out (value (f (value (m i w)) (inst (m i w)) (world (m i w))))
      (inst (f (value (m i w)) (inst (m i w)) (world (m i w))))
      (world (f (value (m i w)) (inst (m i w)) (world (m i w))))
      (trace (m i w)
         ++ trace (f (value (m i w)) (inst (m i w)) (world (m i w)))).
Proof.
  unfold bind. destruct (m i w) as [a i1 w1 t1]. cbn.
  destruct (f a i1 w1) as [b i2 w2 t2]. reflexivity.
Qed.

Lemma times_app (p : event -> bool) (l1 l2 : list event) :
  times p (l1 ++ l2) = times p l1 + times p l2.
Proof. unfold times. now rewrite filter_app, length_app. Qed.

Lemma Update_empty_run (i : instance) (w : W) :
  curConfig i = None ->
  Update Sprintf co i w =
  Out tt i w [ELog LInfo "new configuration is empty" []].
Proof.
  intros Hc. unfold Update, bind, field. cbn. rewrite Hc. reflexivity.
Qed.

Lemma current_after_cycle (i : instance) (w : W) :
  curConfig (inst (Update Sprintf co i w)) = None.
Proof.
  start_cycle i w. invert_runs; auto.
Qed.

(** X1.  When the frontend-group build fails, the cycle is exactly: the
    failed build, the error logged with the build's error, and the
    rotation.  The backend maps are not built, nothing is compared,
    patched, written, validated or reloaded, and the generation that
    failed to build is now in the old slot. *)
Theorem groups_failure_discards (i : instance) (w : W) (c : handle)
        (e : error) :
  let r := Update Sprintf co i w in
  In (EBuildFrontendGroup c (Some e)) (trace r) ->
  trace r =
    [EBuildFrontendGroup c (Some e);
     ELog LError "error building configuration group: %v" [AErr e];
     ECall MclearConfig]
  /\ curConfig i = Some c
  /\ oldConfig (inst r) = Some c
  /\ curConfig (inst r) = None.
Proof.
  intros r Hin. subst r. start_cycle i w.
  invert_runs; expose; same_event Hin; cbn; auto.
Qed.

(** X2.  When the backend-maps build fails, the cycle is exactly: the
    successful group build, the failed maps build, the error logged with
    the build's error, and the rotation; the generation is discarded into
    the old slot without being compared, patched, written or reloaded. *)
Theorem maps_failure_discards (i : instance) (w : W) (c : handle)
        (e : error) :
  let r := Update Sprintf co i w in
  In (EBuildBackendMaps c (Some e)) (trace r) ->
  trace r =
    [EBuildFrontendGroup c None; EBuildBackendMaps c (Some e);
     ELog LError "error building backend maps: %v" [AErr e];
     ECall MclearConfig]
  /\ curConfig i = Some c
  /\ oldConfig (inst r) = Some c
  /\ curConfig (inst r) = None.
Proof.
  intros r Hin. subst r. start_cycle i w.
  invert_runs; expose; same_event Hin; cbn; auto.
Qed.

(** X3.  The timer follows the steps: a [writeTmpl] tick for every
    template write (failed or not), a [validate] tick for every [check],
    a [reload] tick only after a [reload], and no other tick. *)
Theorem ticks_follow_steps (i : instance) (w : W) :
  let tr := trace (Update Sprintf co i w) in
  times (is_tick "writeTmpl") tr = times is_write tr
  /\ times (is_tick "validate") tr = times is_check tr
  /\ times (is_tick "reload") tr <= times is_reload tr
  /\ times is_any_tick tr =
     times (is_tick "writeTmpl") tr + times (is_tick "validate") tr
     + times (is_tick "reload") tr.
Proof.
  intros tr. subst tr. start_cycle i w.
  invert_runs; expose; skip_sort; repeat split; auto.
Qed.

(** X4.  With neither a validation nor a reload command configured, no
    cycle executes a command. *)
Theorem dry_run_executes_nothing (i : instance) (w : W) :
  HAProxyCmd (options i) = "" ->
  ReloadCmd (options i) = "" ->
  occurs is_exec (trace (Update Sprintf co i w)) = false.
Proof.
  intros Hh Hr. start_cycle i w.
  invert_runs; try congruence; expose; skip_sort; reflexivity.
Qed.

(** X5.  Every cycle logs at least one line and at most one of them is
    an error. *)
Theorem errors_logged_at_most_once (i : instance) (w : W) :
  let tr := trace (Update Sprintf co i w) in
  1 <= times is_log tr /\ times is_error_log tr <= 1.
Proof.
  intros tr. subst tr. start_cycle i w.
  invert_runs; expose; skip_sort; split; lia.
Qed.

(** X6.  A second [Update] right after an [Update] finds the current
    slot empty: it logs that and leaves the instance and the world as
    the first one left them. *)
Theorem Update_twice (i : instance) (w : W) :
  let r1 := Update Sprintf co i w in
  Update Sprintf co (inst r1) (world r1) =
  Out tt (inst r1) (world r1) [ELog LInfo "new configuration is empty" []].
Proof.
  intros r1. apply Update_empty_run. apply current_after_cycle.
Qed.

(** X7.  When the updater reports that everything is live and sent no
    command (a count of zero or less), the cycle ends with the rotation
    and the line saying the configurations match: nothing is written,
    validated, reloaded or executed. *)
Theorem live_update_without_commands (i : instance) (w : W) (n : Z) :
  let tr := trace (Update Sprintf co i w) in
  updater_reported true n tr ->
  (n <= 0)%Z ->
  (exists pre,
      tr = pre ++ [ECall MclearConfig;
                   ELog LInfo "old and new configurations match" []]
      /\ occurs is_rotate pre = false)
  /\ occurs is_write tr = false
  /\ occurs is_check tr = false
  /\ occurs is_reload tr = false
  /\ occurs is_exec tr = false.
Proof.
  intros tr (u & u' & Hrep & Hn) Hle. subst tr. start_cycle i w.
  invert_runs; expose; same_event Hrep; try (gating; fail).
  all: skip_sort.
  all: (split; [|auto]).
  all: cut_before_suffix.
  all: cbn; skip_sort; reflexivity.
Qed.

(** X8.  The [check] procedure runs in a cycle exactly when validation
    is enabled, the updater reported a live update with a positive
    command count, and no template write failed. *)
Theorem check_gating (i : instance) (w : W) :
  let tr := trace (Update Sprintf co i w) in
  occurs is_check tr = true <->
  ValidateConfig (options i) = true
  /\ (exists n, updater_reported true n tr /\ (0 < n)%Z)
  /\ ~ write_failed tr.
Proof.
  intros tr. subst tr. start_cycle i w. split.
  - intros Hc.
    invert_runs; expose; revert Hc; skip_sort; intros Hc;
      try discriminate Hc;
      (split; [assumption|]);
      (split;
       [ eexists; split;
         [eexists _, _; split; [find_event|reflexivity]|assumption]
       | intros (t & c0 & e0 & Hin); pick Hin ]).
  - intros (Hv & (n & (u & u' & Hin & Hn) & Hpos) & Hnf).
    invert_runs; expose; skip_sort; try reflexivity; exfalso;
      first [ solve [same_event Hin; try congruence; try lia]
            | apply Hnf; eexists _, _, _; find_event ].
Qed.

(** X9.  [check] and [reload] never both run in one cycle; a cycle
    executes at most one command, and that command is either the
    validation command with [-c -f] and the configuration file, run by
    [check], or the reload command with the strategy and the
    configuration file, run by [reload]. *)
Theorem one_command_per_cycle (i : instance) (w : W) :
  let tr := trace (Update Sprintf co i w) in
  let o := options i in
  occurs is_check tr && occurs is_reload tr = false
  /\ times is_exec tr <= 1
  /\ (forall name args out err,
        In (EExec name args out err) tr ->
        (name = HAProxyCmd o
         /\ args = ["-c"; "-f"; HAProxyConfigFile o]
         /\ occurs is_check tr = true)
        \/ (name = ReloadCmd o
            /\ args = [ReloadStrategy o; HAProxyConfigFile o]
            /\ occurs is_reload tr = true)).
Proof.
  intros tr o. subst tr o. start_cycle i w.
  split; [|split].
  - invert_runs; expose; skip_sort; reflexivity.
  - invert_runs; expose; skip_sort; lia.
  - intros name args out err Hin.
    invert_runs; expose; same_event Hin; skip_sort; auto.
Qed.

(** X10.  How a cycle that invokes [reload] ends.  Either no command
    failed, and the cycle ends with the [reload] tick and the success
    line without any error logged; or the reload command failed, and the
    cycle ends with that command's error logged, without a [reload]
    tick.  Either way the templates had been written from the current
    generation and the rotation was done before [reload] started. *)
Theorem reload_outcome (i : instance) (w : W) (c : handle) :
  curConfig i = Some c ->
  let tr := trace (Update Sprintf co i w) in
  let o := options i in
  occurs is_reload tr = true ->
  preceded_by is_rotate is_reload tr
  /\ preceded_by (is_written c) is_reload tr
  /\ ((exists pre,
          tr = pre ++ [ETick "reload";
                       ELog LInfo "HAProxy successfully reloaded" []]
          /\ occurs is_error_log tr = false)
      \/ (exists out e,
             In (EExec (ReloadCmd o)
                       [ReloadStrategy o; HAProxyConfigFile o] out (Some e))
                tr
             /\ occurs (is_tick "reload") tr = false
             /\ exists pre,
                 tr = pre ++ [ELog LError msg_reload [AErr e]]
                 /\ occurs is_error_log pre = false)).
Proof.
  intros Hc tr o Hr. subst tr o. start_cycle i w.
  invert_runs; try congruence; try discriminate Hr.
  all: match goal with
       | H1 : curConfig ?j = Some ?a, H2 : curConfig ?j = Some ?b |- _ =>
           assert (a = b) by congruence; subst a
       end.
  all: expose; revert Hr; skip_sort; intros Hr; try discriminate Hr.
  all: try match goal with H : true = false |- _ => discriminate H end.
  all: split; [apply each_preceded_sound; order|].
  all: split; [apply each_preceded_sound; order|].
  all: first
         [ left; cut_before_suffix; cbn; skip_sort; reflexivity
         | right; eexists _, _; split; [find_event|];
           split; [cbn; skip_sort; reflexivity|];
           cut_before_suffix; cbn; skip_sort; reflexivity ].
Qed.

(** X11.  The reload command's output is logged as a warning exactly
    when it is not empty, whether the command succeeded or failed. *)
Theorem reload_output_is_warned (i : instance) (w : W) (out : string)
        (err : option error) :
  let tr := trace (Update Sprintf co i w) in
  let o := options i in
  In (EExec (ReloadCmd o) [ReloadStrategy o; HAProxyConfigFile o] out err)
     tr ->
  (In (ELog LWarn msg_output [AStr out]) tr <-> out <> "").
Proof.
  intros tr o Hin. subst tr o. start_cycle i w.
  invert_runs; expose; same_event Hin.
  all: split;
    [ intros Hw; pick Hw; try discriminate
    | intros Hne; try congruence; find_event ].
Qed.

(** *** The sorting loop inside a cycle *)

Lemma filter_sorting_segment (bs : list handle) (rest : list event) :
  filter is_sorting (map ESortEndpoints bs ++ rest) =
  map ESortEndpoints bs ++ filter is_sorting rest.
Proof.
  induction bs as [|b bs IH]; cbn; [reflexivity|]. now rewrite IH.
Qed.

Lemma each_preceded_through_sort (p q : event -> bool) (bs : list handle)
      (rest : list event) :
  each_preceded p q true (map ESortEndpoints bs ++ rest) =
  each_preceded p q true rest.
Proof.
  induction bs as [|b bs IH]; cbn; [reflexivity|].
  rewrite IH. now destruct (q (ESortEndpoints b)).
Qed.

Lemma none_after_past_sort (p q : event -> bool) (bs : list handle)
      (rest : list event) :
  (forall b, q (ESortEndpoints b) = false) ->
  none_after p q (map ESortEndpoints bs ++ rest) = none_after p q rest.
Proof.
  intros Hq. induction bs as [|b bs IH]; cbn; [reflexivity|].
  now rewrite Hq, IH.
Qed.

Ltac sort_order :=
  cbn;
  repeat first
    [ rewrite each_preceded_through_sort
    | rewrite none_after_past_sort by (intro; reflexivity)
    | rewrite existsb_skip_sort by (intro; reflexivity) ];
  cbn; reflexivity.

(** X12.  Endpoints are sorted only when the instance is configured to
    sort backends.  When it is, a cycle that reaches the updater asks the
    current generation for its backends once and sorts the endpoints of
    each of them once, in the order given; all of this happens after the
    updater's call and before any template write and before the
    rotation. *)
Theorem sorting_is_gated (i : instance) (w : W) (c : handle) :
  curConfig i = Some c ->
  let tr := trace (Update Sprintf co i w) in
  (SortBackends (options i) = false -> occurs is_sorting tr = false)
  /\ (SortBackends (options i) = true ->
      occurs is_update tr = true ->
      (exists bs,
          filter is_sorting tr = EBackends c bs :: map ESortEndpoints bs)
      /\ preceded_by is_update is_sorting tr
      /\ never_after is_sorting is_write tr
      /\ never_after is_sorting is_rotate tr).
Proof.
  intros Hc tr. subst tr. start_cycle i w. split.
  - intros Hs.
    invert_runs; unfold patch_events in *; rewrite ?Hs in *; clear Hs;
      expose; reflexivity.
  - intros Hs Hup.
    invert_runs; try congruence; try discriminate Hup.
    all: match goal with
         | H1 : curConfig ?j = Some ?a, H2 : curConfig ?j = Some ?b |- _ =>
             assert (a = b) by congruence; subst a
         end.
    all: unfold patch_events in *; rewrite ?Hs in *; clear Hs Hup; expose.
    all: split;
      [ eexists; rewrite filter_sorting_segment; cbn;
        rewrite ?app_nil_r; reflexivity |].
    all: split; [apply each_preceded_sound; sort_order|].
    all: split; apply none_after_sound; sort_order.
Qed.

(** *** From one cycle to the next *)

Lemma comparison_reads_slots (i : instance) (w : W) (c : handle)
      (o : option handle) (b : bool) :
  In (EEquals c o b) (trace (Update Sprintf co i w)) ->
  curConfig i = Some c /\ o = oldConfig i.
Proof.
  intros Hin. start_cycle i w.
  invert_runs; expose; same_event Hin; auto.
Qed.

(** X13.  The generation of one cycle is the baseline of the next,
    however the first cycle ended: after an [Update] that started with
    the generation [c1], the next [Config] creates a generation, and the
    [Update] that follows compares that new generation with [c1] and
    leaves it in the old slot in turn. *)
Theorem next_cycle_compares_with_previous (i : instance) (w : W)
        (c1 : handle) :
  curConfig i = Some c1 ->
  let u1 := Update Sprintf co i w in
  let g := Config co (inst u1) (world u1) in
  let u2 := Update Sprintf co (inst g) (world g) in
  times is_create (trace g) = 1
  /\ (forall c o b,
        In (EEquals c o b) (trace u2) -> c = value g /\ o = Some c1)
  /\ oldConfig (inst u2) = Some (value g)
  /\ curConfig (inst u2) = None.
Proof.
  intros Hc u1 g u2.
  assert (Hg : curConfig (inst g) = Some (value g)
               /\ oldConfig (inst g) = Some c1
               /\ times is_create (trace g) = 1).
  { subst g u1. rewrite Config_run, (@slots_after_cycle i w c1 Hc).
    cbn. rewrite Hc. repeat split; reflexivity. }
  destruct Hg as (Hcur & Hold & Hone).
  split; [exact Hone|]. split.
  - intros c o b Hin. subst u2.
    apply comparison_reads_slots in Hin. destruct Hin as [H1 H2].
    split; congruence.
  - subst u2. rewrite (@slots_after_cycle (inst g) (world g) (value g) Hcur).
    cbn. split; [exact Hcur|reflexivity].
Qed.

(** *** Any sequence of [Config] and [Update] calls *)

Lemma Update_counts (i : instance) (w : W) :
  times is_rotate (trace (Update Sprintf co i w)) = present (curConfig i)
  /\ times is_create (trace (Update Sprintf co i w)) = 0
  /\ same_settings i (inst (Update Sprintf co i w)).
Proof.
  unfold same_settings. start_cycle i w.
  invert_runs; expose; skip_sort;
    repeat match goal with
           | H : curConfig _ = _ |- _ => rewrite H
           end; cbn; auto 10.
Qed.

Lemma Config_counts (i : instance) (w : W) :
  times is_rotate (trace (Config co i w)) = 0
  /\ times is_create (trace (Config co i w)) + present (curConfig i) = 1
  /\ present (curConfig (inst (Config co i w))) = 1
  /\ same_settings i (inst (Config co i w)).
Proof.
  unfold same_settings. rewrite Config_run.
  destruct (curConfig i) as [c|] eqn:Hc; cbn; rewrite ?Hc; cbn; auto 10.
Qed.

(** X14.  Generations are conserved over any sequence of [Config] and
    [Update] calls: the rotations made plus the generation left in the
    current slot equal the generations created plus the one that was
    there at the start.  There is at most one rotation per [Update] and
    one creation per [Config], and nothing but the two slots of the
    instance ever changes. *)
Theorem generations_are_conserved (ops : list op) :
  forall (i : instance) (w : W),
    let r := run_ops Sprintf co ops i w in
    times is_rotate (trace r) + present (curConfig (inst r)) =
    times is_create (trace r) + present (curConfig i)
    /\ times is_rotate (trace r) <= count_op OpUpdate ops
    /\ times is_create (trace r) <= count_op OpConfig ops
    /\ same_settings i (inst r).
Proof.
  unfold run_ops.
  induction ops as [|o ops IH]; intros i w.
  - cbn. unfold same_settings. repeat split; lia.
  - cbn zeta. cbn [range]. rewrite bind_out. cbn [trace inst].
    rewrite !times_app.
    set (r1 := step_op Sprintf co o i w).
    specialize (IH (inst r1) (world r1)). cbn zeta in IH.
    destruct IH as (IHc & IHr & IHk & IHs).
    assert (H1 : times is_rotate (trace r1) + present (curConfig (inst r1))
                 = times is_create (trace r1) + present (curConfig i)
                 /\ times is_rotate (trace r1) <= count_op OpUpdate [o]
                 /\ times is_create (trace r1) <= count_op OpConfig [o]
                 /\ same_settings i (inst r1)).
    { subst r1. destruct o; cbn [step_op].
      - pose proof (eq_refl : count_op OpUpdate [OpConfig] = 0) as K1.
        pose proof (eq_refl : count_op OpConfig [OpConfig] = 1) as K2.
        rewrite bind_out. unfold ret. cbn [trace inst value world].
        rewrite app_nil_r.
        destruct (Config_counts i w) as (Hr & Hk & Hp & Hs).
        rewrite Hr, Hp.
        split; [lia|]. split; [lia|]. split; [lia|exact Hs].
      - pose proof (eq_refl : count_op OpUpdate [OpUpdate] = 1) as K1.
        pose proof (eq_refl : count_op OpConfig [OpUpdate] = 0) as K2.
        destruct (Update_counts i w) as (Hr & Hk & Hs).
        rewrite Hr, Hk, current_after_cycle.
        assert (present (curConfig i) <= 1)
          by (destruct (curConfig i); cbn; lia).
        cbn [present].
        split; [lia|]. split; [lia|]. split; [lia|exact Hs]. }
    destruct H1 as (H1c & H1r & H1k & H1s).
    assert (Hcnt : forall x, count_op x (o :: ops)
                             = count_op x [o] + count_op x ops).
    { intros x. unfold count_op. cbn.
      destruct o, x; cbn; lia. }
    rewrite !Hcnt.
    split; [lia|]. split; [lia|]. split; [lia|].
    unfold same_settings in *.
    destruct H1s as (? & ? & ? & ? & ? & ?).
    destruct IHs as (? & ? & ? & ? & ? & ?).
    repeat split; congruence.
Qed.

End Soundness.

(** ** Creating the instance and parsing its templates *)

Section TemplateProperties.
Context {W : Type}.
Variable ops : TemplateOps W.

(** X15.  [ParseTemplates] returns no error exactly when, after clearing
    both template sets, it registered the three templates in order
    (modsecurity and haproxy with the instance's template set, the map
    template with the maps template set; the haproxy template with the
    configured number of old files to keep) and every registration
    succeeded. *)
Theorem ParseTemplates_succeeds_iff (i : instance) (w : W) :
  let r := ParseTemplates ops i w in
  fst (fst r) = None <->
  snd r = [TClearTemplates (templates i); TClearTemplates (mapsTemplate i)]
            ++ registrations i None None None.
Proof.
  unfold ParseTemplates, tbind, tret, ClearTemplates, NewTemplate,
    registrations.
  cbn.
  destruct (to_NewTemplate ops _ _ _ _ _ _ _) as [[e1|] w1]; cbn;
    [split; intros H; discriminate H|].
  destruct (to_NewTemplate ops _ _ _ _ _ _ _) as [[e2|] w2]; cbn;
    [split; intros H; discriminate H|].
  destruct (to_NewTemplate ops _ _ _ _ _ _ _) as [[e3|] w3]; cbn;
    [split; intros H; discriminate H|].
  split; reflexivity.
Qed.

(** X16.  When [ParseTemplates] returns an error, it is the error of
    the first registration that failed and nothing is registered after
    it: the run is the two clears followed by the registrations up to
    the failing one.  Both template sets have been cleared by then, so
    a failed [ParseTemplates] does not leave the earlier templates in
    place. *)
Theorem ParseTemplates_first_error (i : instance) (w : W) (e : error) :
  let r := ParseTemplates ops i w in
  let clears := [TClearTemplates (templates i);
                 TClearTemplates (mapsTemplate i)] in
  fst (fst r) = Some e ->
  snd r = clears ++ firstn 1 (registrations i (Some e) None None)
  \/ snd r = clears ++ firstn 2 (registrations i None (Some e) None)
  \/ snd r = clears ++ registrations i None None (Some e).
Proof.
  unfold ParseTemplates, tbind, tret, ClearTemplates, NewTemplate,
    registrations.
  cbn.
  destruct (to_NewTemplate ops _ _ _ _ _ _ _) as [[e1|] w1]; cbn.
  { intros H. injection H as ->. left. reflexivity. }
  destruct (to_NewTemplate ops _ _ _ _ _ _ _) as [[e2|] w2]; cbn.
  { intros H. injection H as ->. right. left. reflexivity. }
  destruct (to_NewTemplate ops _ _ _ _ _ _ _) as [[e3|] w3]; cbn.
  { intros H. injection H as ->. right. right. reflexivity. }
  intros H. discriminate H.
Qed.

(** X17.  An instance as [CreateInstance] returns it has both slots
    empty and two template sets created in order.  Its first [Update]
    does nothing but log; its first [Config] creates a generation with
    the maps directory [/etc/haproxy/maps] and the maps template set of
    the instance; and the first cycle on that generation has no baseline:
    the comparison is made against [nil], and the generation becomes
    the old one. *)
Theorem fresh_instance_first_cycle (lg bu : handle) (o : InstanceOptions)
        (w : W) :
  let r := CreateInstance ops lg bu o w in
  let i := fst (fst r) in
  oldConfig i = None /\ curConfig i = None /\ options i = o
  /\ snd r = [TCreateConfig (templates i); TCreateConfig (mapsTemplate i)]
  /\ (forall Sprintf (co : Collaborators W) w2,
        Update Sprintf co i w2 =
        Out tt i w2 [ELog LInfo "new configuration is empty" []])
  /\ (forall Sprintf (co : Collaborators W) w2,
        let g := Config co i w2 in
        let u := Update Sprintf co (inst g) (world g) in
        trace g =
          [ECreateConfig bu {| opt_mapsTemplate := mapsTemplate i;
                               opt_mapsDir := "/etc/haproxy/maps" |}
                         (value g)]
        /\ (forall c old b,
              In (EEquals c old b) (trace u) -> c = value g /\ old = None)
        /\ oldConfig (inst u) = Some (value g)
        /\ curConfig (inst u) = None).
Proof.
  intros r i. subst i r.
  unfold CreateInstance, tbind, tret, CreateConfig.
  destruct (to_CreateConfig ops w) as [t w1].
  destruct (to_CreateConfig ops w1) as [mt w2].
  lazy beta iota delta [fst snd oldConfig curConfig options templates
                        mapsTemplate app].
  do 4 (split; [reflexivity|]).
  split.
  - intros Sprintf co w3. now apply Update_empty_run.
  - intros Sprintf co w3.
    set (g := Config co _ w3).
    set (u := Update Sprintf co (inst g) (world g)).
    assert (Hg : trace g =
                   [ECreateConfig bu {| opt_mapsTemplate := mt;
                                        opt_mapsDir := "/etc/haproxy/maps" |}
                                  (value g)]
                 /\ curConfig (inst g) = Some (value g)
                 /\ oldConfig (inst g) = None).
    { subst g. rewrite Config_run. cbn. repeat split; reflexivity. }
    destruct Hg as (Htr & Hcur & Hold).
    split; [exact Htr|]. split.
    + intros c old b Hin. subst u.
      apply comparison_reads_slots in Hin. destruct Hin as [H1 H2].
      split; congruence.
    + subst u.
      rewrite (@slots_after_cycle W Sprintf co (inst g) (world g) (value g)
                 Hcur).
      cbn. split; [exact Hcur|reflexivity].
Qed.

End TemplateProperties.





(** C2 as stated fails: when the updater asks for a reload (updated=false)
    and the template write then fails, [reload] is not invoked. *)
Lemma reload_gating_counterexample :
  let tr := trace (Update Sprintf0 (scripted script_write_fails)
                          (instance0 None (Some 7)) 10) in
  ~ (occurs is_reload tr = true <-> exists n, updater_reported false n tr).
Proof.
  intros tr [_ H].
  assert (Hr : occurs is_reload tr = false) by reflexivity.
  rewrite H in Hr; [discriminate|].
  exists 0%Z. eexists _, _. split.
  - vm_compute. do 3 right. left. reflexivity.
  - reflexivity.
Qed.

(** C8.  [check] on the output [haproxy -c] prints for an unknown
    [log-format] variable: the command is executed against the
    configuration file and fails, and the error returned is the output run
    through the formatter as a format string ([fmt.Errorf(outstr)]), which
    is not the output text. *)
Theorem check_error_not_verbatim :
  let r := check Sprintf0 (scripted script_invalid) (instance0 None None) 10 in
  trace r =
    [ECall Mcheck;
     EExec "haproxy" ["-c"; "-f"; "/etc/haproxy/haproxy.cfg"] haproxy_output
           (Some (errorString "exit status 1"))]
  /\ value r =
     Some (errorString
       "no such format variable 'zz'. If you wanted to emit the '%!'(MISSING) character verbatim, you need to use '%'.")
  /\ (forall e, value r = Some e -> Error e <> haproxy_output).
Proof.
  split; [reflexivity|]. split; [reflexivity|].
  intros e H. injection H as <-. apply String.eqb_neq. reflexivity.
Qed.

(** ** The theorems at work on scripted runs *)

Lemma write_gating_witness :
  let tr := trace (Update Sprintf0 (scripted script_live)
                          (instance0 (Some 5) (Some 7)) 10) in
  builds_succeeded 7 tr
  /\ In (EEquals 7 (Some 5) false) tr
  /\ times is_update tr = 1
  /\ occurs is_write tr = true.
Proof.
  intros tr.
  assert (Hb : builds_succeeded 7 tr) by (split; vm_compute; auto).
  assert (He : In (EEquals 7 (Some 5) false) tr) by (vm_compute; auto).
  destruct (@write_gating nat Sprintf0 (scripted script_live)
                          (instance0 (Some 5) (Some 7)) 10 7
                          eq_refl Hb He) as (_ & Hone & Hall).
  split; [exact Hb|]. split; [exact He|]. split; [exact Hone|].
  apply (Hall true 1%Z).
  - eexists _, _. split.
    + vm_compute. do 3 right. left. reflexivity.
    + reflexivity.
  - right. lia.
Defined.

Lemma reload_gating_amended_witness :
  let tr := trace (Update Sprintf0 (scripted script_live)
                          (instance0 (Some 5) (Some 7)) 10) in
  updater_reported true 1 tr /\ occurs is_reload tr = false.
Proof.
  intros tr.
  assert (Hr : updater_reported true 1 tr).
  { eexists _, _. split.
    - vm_compute. do 3 right. left. reflexivity.
    - reflexivity. }
  split; [exact Hr|].
  exact (proj2 (@reload_gating_amended nat Sprintf0 (scripted script_live)
                  (instance0 (Some 5) (Some 7)) 10) 1%Z Hr).
Defined.

Lemma rotation_exactly_once_witness :
  let i := instance0 (Some 5) (Some 7) in
  let r := Update Sprintf0 (scripted script_write_fails) i 10 in
  curConfig i = Some 7
  /\ oldConfig (inst r) = Some 7
  /\ curConfig (inst r) = None
  /\ inst r = rotate i
  /\ times is_rotate (trace r) = 1.
Proof.
  split; [reflexivity|].
  exact (@rotation_exactly_once nat Sprintf0 (scripted script_write_fails)
           (instance0 (Some 5) (Some 7)) 10 7 eq_refl).
Defined.

Lemma write_failure_aborts_witness :
  let i := instance0 (Some 5) (Some 7) in
  let r := Update Sprintf0 (scripted script_write_fails) i 10 in
  let e := errorString "no space left on device" in
  In (ETemplatesWrite 2 7 (Some e)) (trace r)
  /\ occurs is_reload (trace r) = false
  /\ inst r = rotate i.
Proof.
  intros i r e.
  assert (Hin : In (ETemplatesWrite 2 7 (Some e)) (trace r)).
  { vm_compute. do 5 right. left. reflexivity. }
  destruct (@write_failure_aborts nat Sprintf0 (scripted script_write_fails)
              i 10 2 7 e Hin) as (_ & Hr & _ & _ & _ & Hi).
  split; [exact Hin|]. split; [exact Hr|exact Hi].
Defined.

Lemma Update_without_current_witness :
  let i := instance0 (Some 5) None in
  let r := Update Sprintf0 (scripted script_reload) i 10 in
  curConfig i = None
  /\ r = Out tt i 10 [ELog LInfo "new configuration is empty" []]
  /\ oldConfig (inst r) = Some 5.
Proof.
  intros i r. split; [reflexivity|].
  destruct (@Update_without_current nat Sprintf0 (scripted script_reload)
              i 10 eq_refl) as (Hrun & Hold & _).
  split; [exact Hrun|exact Hold].
Defined.

Lemma equal_cycle_is_noop_witness :
  let i := instance0 (Some 5) (Some 7) in
  let r := Update Sprintf0 (scripted script_equal) i 10 in
  builds_succeeded 7 (trace r)
  /\ In (EEquals 7 (Some 5) true) (trace r)
  /\ occurs is_write (trace r) = false
  /\ occurs is_update (trace r) = false
  /\ occurs is_reload (trace r) = false
  /\ oldConfig (inst r) = Some 7.
Proof.
  intros i r.
  assert (Hb : builds_succeeded 7 (trace r)) by (split; vm_compute; auto).
  assert (He : In (EEquals 7 (Some 5) true) (trace r))
    by (vm_compute; auto).
  destruct (@equal_cycle_is_noop nat Sprintf0 (scripted script_equal)
              i 10 7 eq_refl Hb He)
    as (_ & Hw & Hu & Hr & _ & _ & Hold & _).
  repeat split; try apply Hb; assumption.
Defined.

Lemma validation_failure_is_advisory_witness :
  let i := instance0 (Some 5) (Some 7) in
  let r := Update Sprintf0 (scripted script_invalid) i 10 in
  let e := errorString "exit status 1" in
  updater_reported true 1 (trace r)
  /\ In (EExec "haproxy" ["-c"; "-f"; "/etc/haproxy/haproxy.cfg"]
               haproxy_output (Some e)) (trace r)
  /\ occurs is_reload (trace r) = false
  /\ times is_rotate (trace r) = 1
  /\ inst r = rotate i.
Proof.
  intros i r e.
  assert (Hr : updater_reported true 1 (trace r)).
  { eexists _, _. split.
    - vm_compute. do 3 right. left. reflexivity.
    - reflexivity. }
  assert (Hx : In (EExec (HAProxyCmd (options i))
                         ["-c"; "-f"; HAProxyConfigFile (options i)]
                         haproxy_output (Some e)) (trace r)).
  { vm_compute. do 9 right. left. reflexivity. }
  destruct (@validation_failure_is_advisory nat Sprintf0
              (scripted script_invalid) i 10 1%Z haproxy_output e
              eq_refl Hr eq_refl Hx) as (_ & Hrel & Hrot & Hi).
  split; [exact Hr|]. split; [exact Hx|].
  split; [exact Hrel|]. split; [exact Hrot|exact Hi].
Defined.

Lemma patch_write_reload_order_witness :
  let i := instance0 None (Some 7) in
  let tr := trace (Update Sprintf0 (scripted script_reload) i 10) in
  occurs is_update tr = true
  /\ times is_update tr = 1
  /\ preceded_by is_update is_write tr
  /\ never_after is_write is_reload tr
  /\ preceded_by (is_written 7) is_reload tr
  /\ preceded_by is_update is_reload tr.
Proof.
  split; [reflexivity|].
  exact (@patch_write_reload_order nat Sprintf0 (scripted script_reload)
           (instance0 None (Some 7)) 10 7 eq_refl eq_refl).
Defined.

Lemma Config_lazy_witness :
  let i := instance0 (Some 5) (Some 7) in
  let u := Update Sprintf0 (scripted script_live) i 10 in
  let r := Config (scripted script_live) (inst u) (world u) in
  curConfig i <> None
  /\ curConfig (inst u) = None
  /\ times is_create (trace r) = 1
  /\ curConfig (inst r) = Some (value r).
Proof.
  intros i u r.
  assert (Hc : curConfig i <> None) by (cbn; discriminate).
  split; [exact Hc|].
  exact (proj2 (proj2 (@Config_lazy nat Sprintf0 (scripted script_live)
                         i 10)) Hc).
Defined.

(** ** The further theorems at work on scripted runs *)

Lemma groups_failure_discards_witness :
  let i := instance0 (Some 5) (Some 7) in
  let r := Update Sprintf0 (scripted script_groups_fail) i 10 in
  let e := errorString "duplicate frontend" in
  In (EBuildFrontendGroup 7 (Some e)) (trace r)
  /\ List.length (trace r) = 3
  /\ oldConfig (inst r) = Some 7
  /\ curConfig (inst r) = None.
Proof.
  intros i r e.
  assert (Hin : In (EBuildFrontendGroup 7 (Some e)) (trace r)).
  { vm_compute. left. reflexivity. }
  destruct (@groups_failure_discards nat Sprintf0
              (scripted script_groups_fail) i 10 7 e Hin)
    as (Htr & _ & Hold & Hcur).
  split; [exact Hin|]. split; [|split; assumption].
  fold r in Htr. rewrite Htr. reflexivity.
Defined.

Lemma maps_failure_discards_witness :
  let i := instance0 (Some 5) (Some 7) in
  let r := Update Sprintf0 (scripted script_maps_fail) i 10 in
  let e := errorString "cannot write map" in
  In (EBuildBackendMaps 7 (Some e)) (trace r)
  /\ List.length (trace r) = 4
  /\ oldConfig (inst r) = Some 7
  /\ curConfig (inst r) = None.
Proof.
  intros i r e.
  assert (Hin : In (EBuildBackendMaps 7 (Some e)) (trace r)).
  { vm_compute. right. left. reflexivity. }
  destruct (@maps_failure_discards nat Sprintf0
              (scripted script_maps_fail) i 10 7 e Hin)
    as (Htr & _ & Hold & Hcur).
  split; [exact Hin|]. split; [|split; assumption].
  fold r in Htr. rewrite Htr. reflexivity.
Defined.

Lemma dry_run_executes_nothing_witness :
  let i := instance_dry (Some 5) (Some 7) in
  HAProxyCmd (options i) = "" /\ ReloadCmd (options i) = ""
  /\ occurs is_exec (trace (Update Sprintf0 (scripted script_live) i 10))
     = false.
Proof.
  intros i. split; [reflexivity|]. split; [reflexivity|].
  exact (@dry_run_executes_nothing nat Sprintf0 (scripted script_live)
           i 10 eq_refl eq_refl).
Defined.

Lemma live_update_without_commands_witness :
  let i := instance0 (Some 5) (Some 7) in
  let tr := trace (Update Sprintf0 (scripted script_nothing_to_send) i 10) in
  updater_reported true 0 tr
  /\ occurs is_write tr = false
  /\ occurs is_check tr = false
  /\ occurs is_reload tr = false
  /\ occurs is_exec tr = false.
Proof.
  intros i tr.
  assert (Hr : updater_reported true 0 tr).
  { eexists _, _. split.
    - vm_compute. do 3 right. left. reflexivity.
    - reflexivity. }
  destruct (@live_update_without_commands nat Sprintf0
              (scripted script_nothing_to_send) i 10 0%Z Hr
              (Z.le_refl 0)) as (_ & H).
  split; [exact Hr|exact H].
Defined.

Lemma one_command_per_cycle_witness :
  let i := instance0 (Some 5) (Some 7) in
  let tr := trace (Update Sprintf0 (scripted script_invalid) i 10) in
  let e := errorString "exit status 1" in
  In (EExec "haproxy" ["-c"; "-f"; "/etc/haproxy/haproxy.cfg"]
            haproxy_output (Some e)) tr
  /\ times is_exec tr <= 1
  /\ occurs is_check tr = true
  /\ occurs is_reload tr = false.
Proof.
  intros i tr e.
  assert (Hin : In (EExec "haproxy" ["-c"; "-f"; "/etc/haproxy/haproxy.cfg"]
                          haproxy_output (Some e)) tr).
  { vm_compute. do 9 right. left. reflexivity. }
  destruct (@one_command_per_cycle nat Sprintf0 (scripted script_invalid)
              i 10) as (Hx & Hone & Hall).
  split; [exact Hin|]. split; [exact Hone|].
  destruct (Hall _ _ _ _ Hin) as [(_ & _ & Hc)|(_ & Hargs & _)];
    [|discriminate Hargs].
  split; [exact Hc|reflexivity].
Defined.

Lemma reload_outcome_witness :
  let i := instance0 None (Some 7) in
  let tr := trace (Update Sprintf0 (scripted script_reload_fails) i 10) in
  curConfig i = Some 7
  /\ occurs is_reload tr = true
  /\ preceded_by is_rotate is_reload tr
  /\ preceded_by (is_written 7) is_reload tr.
Proof.
  intros i tr.
  destruct (@reload_outcome nat Sprintf0 (scripted script_reload_fails)
              i 10 7 eq_refl eq_refl) as (H1 & H2 & _).
  split; [reflexivity|]. split; [reflexivity|]. split; assumption.
Defined.

Lemma reload_output_is_warned_witness :
  let i := instance0 None (Some 7) in
  let tr := trace (Update Sprintf0 (scripted script_reload_fails) i 10) in
  let e := errorString "exit status 1" in
  In (EExec "/haproxy-reload.sh" ["native"; "/etc/haproxy/haproxy.cfg"]
            "cannot bind socket" (Some e)) tr
  /\ In (ELog LWarn msg_output [AStr "cannot bind socket"]) tr.
Proof.
  intros i tr e.
  assert (Hin : In (EExec (ReloadCmd (options i))
                          [ReloadStrategy (options i);
                           HAProxyConfigFile (options i)]
                          "cannot bind socket" (Some e)) tr).
  { vm_compute. do 9 right. left. reflexivity. }
  split; [exact Hin|].
  apply (@reload_output_is_warned nat Sprintf0 (scripted script_reload_fails)
           i 10 "cannot bind socket" (Some e) Hin).
  discriminate.
Defined.

Lemma sorting_is_gated_witness :
  let i := instance0 (Some 5) (Some 7) in
  let tr := trace (Update Sprintf0
                          (scripted (with_Backends script_live [21; 22]))
                          i 10) in
  curConfig i = Some 7
  /\ SortBackends (options i) = true
  /\ occurs is_update tr = true
  /\ preceded_by is_update is_sorting tr
  /\ never_after is_sorting is_write tr
  /\ never_after is_sorting is_rotate tr.
Proof.
  intros i tr.
  destruct (@sorting_is_gated nat Sprintf0
              (scripted (with_Backends script_live [21; 22])) i 10 7
              eq_refl) as (_ & H).
  destruct (H eq_refl eq_refl) as (_ & H1 & H2 & H3).
  split; [reflexivity|]. split; [reflexivity|]. split; [reflexivity|].
  split; [exact H1|]. split; assumption.
Defined.

Lemma next_cycle_compares_with_previous_witness :
  let i := instance0 (Some 5) (Some 7) in
  let co := scripted script_write_fails in
  let u1 := Update Sprintf0 co i 10 in
  let g := Config co (inst u1) (world u1) in
  let u2 := Update Sprintf0 co (inst g) (world g) in
  curConfig i = Some 7
  /\ times is_create (trace g) = 1
  /\ oldConfig (inst u2) = Some (value g)
  /\ curConfig (inst u2) = None.
Proof.
  intros i co u1 g u2.
  destruct (@next_cycle_compares_with_previous nat Sprintf0 co i 10 7
              eq_refl) as (H1 & _ & H2 & H3).
  split; [reflexivity|]. split; [exact H1|]. split; assumption.
Defined.

Lemma ParseTemplates_first_error_witness :
  let i := instance0 None None in
  let r := ParseTemplates (scripted_templates (fails_on "haproxy.tmpl"))
                          i 10 in
  let e := errorString "template: parse error" in
  fst (fst r) = Some e
  /\ List.length (snd r) = 4.
Proof.
  intros i r e.
  assert (He : fst (fst r) = Some e) by reflexivity.
  split; [exact He|].
  destruct (@ParseTemplates_first_error nat
              (scripted_templates (fails_on "haproxy.tmpl")) i 10 e He)
    as [H|[H|H]]; fold r in H; rewrite H; try reflexivity;
    exfalso; revert H; vm_compute; discriminate.
Defined.

Lemma fresh_instance_first_cycle_witness :
  let r := CreateInstance (scripted_templates no_failure) 0 1 options0 10 in
  let i := fst (fst r) in
  let g := Config (scripted script_reload) i 20 in
  let u := Update Sprintf0 (scripted script_reload) (inst g) (world g) in
  In (EEquals (value g) None false) (trace u)
  /\ oldConfig (inst u) = Some (value g)
  /\ curConfig (inst u) = None.
Proof.
  intros r i g u.
  destruct (@fresh_instance_first_cycle nat (scripted_templates no_failure)
              0 1 options0 10) as (_ & _ & _ & _ & _ & H).
  destruct (H Sprintf0 (scripted script_reload) 20) as (_ & _ & H1 & H2).
  split; [|split; assumption].
  vm_compute. do 2 right. left. reflexivity.
Defined.

(** ** The scenarios of the specification, run on scripts *)

Example scenario_first_reload :
  let r := Update Sprintf0 (scripted script_reload)
                  (instance0 None (Some 7)) 10 in
  trace r =
    [EBuildFrontendGroup 7 None; EBuildBackendMaps 7 None;
     EEquals 7 None false;
     EDynUpdate {| upd_old := None; upd_cur := Some 7; cmdCnt := 0 |} false
                {| upd_old := None; upd_cur := Some 7; cmdCnt := 0 |};
     EBackends 7 [];
     ETemplatesWrite 2 7 None; ETick "writeTmpl";
     ECall MclearConfig; ECall Mreload;
     EExec "/haproxy-reload.sh" ["native"; "/etc/haproxy/haproxy.cfg"] ""
           None;
     ETick "reload"; ELog LInfo "HAProxy successfully reloaded" []]
  /\ inst r = instance0 (Some 7) None.
Proof. split; reflexivity. Qed.

Example scenario_equal :
  let r := Update Sprintf0 (scripted script_equal)
                  (instance0 (Some 5) (Some 7)) 10 in
  trace r =
    [EBuildFrontendGroup 7 None; EBuildBackendMaps 7 None;
     EEquals 7 (Some 5) true;
     ELog (LInfoV 2) "old and new configurations match, skipping reload" [];
     ECall MclearConfig]
  /\ inst r = instance0 (Some 7) None.
Proof. split; reflexivity. Qed.

Example scenario_live_update :
  let r := Update Sprintf0
                  (scripted (with_Backends script_live [21; 22]))
                  (instance0 (Some 5) (Some 7)) 10 in
  trace r =
    [EBuildFrontendGroup 7 None; EBuildBackendMaps 7 None;
     EEquals 7 (Some 5) false;
     EDynUpdate {| upd_old := Some 5; upd_cur := Some 7; cmdCnt := 0 |} true
                {| upd_old := Some 5; upd_cur := Some 7; cmdCnt := 1 |};
     EBackends 7 [21; 22]; ESortEndpoints 21; ESortEndpoints 22;
     ETemplatesWrite 2 7 None; ETick "writeTmpl";
     ECall MclearConfig; ECall Mcheck;
     EExec "haproxy" ["-c"; "-f"; "/etc/haproxy/haproxy.cfg"] "" None;
     ETick "validate"; ELog LInfo msg_sent [AInt 1]]
  /\ inst r = instance0 (Some 7) None.
Proof. split; reflexivity. Qed.

Example scenario_reload_fails :
  let r := Update Sprintf0
                  (scripted (with_exec script_reload (exec_fails "boom")))
                  (instance0 (Some 5) (Some 7)) 10 in
  trace r =
    [EBuildFrontendGroup 7 None; EBuildBackendMaps 7 None;
     EEquals 7 (Some 5) false;
     EDynUpdate {| upd_old := Some 5; upd_cur := Some 7; cmdCnt := 0 |} false
                {| upd_old := Some 5; upd_cur := Some 7; cmdCnt := 0 |};
     EBackends 7 [];
     ETemplatesWrite 2 7 None; ETick "writeTmpl";
     ECall MclearConfig; ECall Mreload;
     EExec "/haproxy-reload.sh" ["native"; "/etc/haproxy/haproxy.cfg"]
           "boom" (Some (errorString "exit status 1"));
     ELog LWarn msg_output [AStr "boom"];
     ELog LError msg_reload [AErr (errorString "exit status 1")]]
  /\ inst r = instance0 (Some 7) None.
Proof. split; reflexivity. Qed.

(** The four rows of the table that decides whether templates are
    written. *)
Example gating_table_rows :
  let writes updated n :=
    occurs is_write
      (trace (Update Sprintf0 (scripted (with_update script_reload updated n))
                     (instance0 (Some 5) (Some 7)) 10)) in
  writes false 0%Z = true /\ writes false 3%Z = true
  /\ writes true 3%Z = true /\ writes true 0%Z = false.
Proof. repeat split; reflexivity. Qed.
